(** * Pyedra: the HG1G2 phase-function fit

    A shallow embedding of [pyedra/core.py] ([obs_counter]) and of
    [pyedra/hg1g2_model.py] ([_HG1G2_model], [HG1G2_fit]), with the
    properties the specification states about them.

    Conventions of the embedding.
    - A float is a real number of [R]: rounding, overflow, infinities and
      NaN are outside the model.  [np.log10 x] is [ln x / ln 10] and
      [10 ** y] is [Rpower 10 y]; [np.sqrt] is [sqrt].
    - An observation frame is the list of its rows, in row order; a row has
      the three columns [id], [alpha] and [v], none of them missing.
    - A Python exception is a value of [exn]; a computation that may raise
      returns a [result].
    - [HG1G2_fit] runs in a small state-and-exception monad [M].  Its state
      holds the caller's frame object (the [df] argument is a reference to
      it) and the log of the calls made to [scipy.optimize.curve_fit].
    - The Penttila (2016) table, [curve_fit] and the contents of the arrays
      that [np.empty] returns are parameters of the model. *)

From Stdlib Require Import String Bool Reals Lra Lia ZArith List.
From Stdlib Require Import DecimalString Sorted Permutation.
Import ListNotations.

Open Scope R_scope.

(** ** Exceptions and results *)

Inductive exn : Type :=
| ValueError (msg : string)
| TypeError (msg : string)
| IndexError (msg : string)
| RuntimeError (msg : string).

Inductive result (A : Type) : Type :=
| Ok (a : A)
| Raise (e : exn).

Arguments Ok {A} a.
Arguments Raise {A} e.

(** The exceptions of the classes of [core.py] and of the plots: those of
    the fit, and those of attribute and key lookup. *)
Inductive exception : Type :=
| Exn (e : exn)
| AttributeError (msg : string)
| KeyError (key : string).

Inductive outcome (A : Type) : Type :=
| Returns (a : A)
| Raises (e : exception).

Arguments Returns {A} a.
Arguments Raises {A} e.

(** ** Data model *)

(** A row of the observation frame: columns [id], [alpha], [v]. *)
Record Observation : Type := mkObs {
  obs_id : Z;
  obs_alpha : R;
  obs_v : R
}.

Definition DataFrame : Type := list Observation.

(** A row of the reference table: columns [alpha], [phi1], [phi2], [phi3]. *)
Record Penttila2016Row : Type := mkRef {
  ref_alpha : R;
  ref_phi1 : R;
  ref_phi2 : R;
  ref_phi3 : R
}.

(** [str(idx)] of an integer. *)
Definition str (z : Z) : string := NilZero.string_of_int (Z.to_int z).

(** [df[df["id"] == id]]: the rows of one entity, in their row order. *)
Definition select_id (df : DataFrame) (id : Z) : DataFrame :=
  filter (fun o => (obs_id o =? id)%Z) df.

(** ** pyedra/core.py *)

Module core.

(** A row of [df.groupby("id").count()]: the group key and, per column, the
    number of cells of the group. *)
Record CountRow : Type := mkCount {
  cnt_index : Z;
  cnt_alpha : Z;
  cnt_v : Z
}.

(** One more row for the group of key [k]: it adds one to the count of each
    column, none of its cells being missing.  The groups are kept in
    ascending order of their key, as [groupby] sorts them. *)
Fixpoint groupby_add (k : Z) (g : list CountRow) : list CountRow :=
  match g with
  | [] => [mkCount k 1 1]
  | r :: tl =>
      if (k <? cnt_index r)%Z then mkCount k 1 1 :: g
      else if (k =? cnt_index r)%Z
           then mkCount k (cnt_alpha r + 1) (cnt_v r + 1) :: tl
           else r :: groupby_add k tl
  end.

Definition groupby_id_count (df : DataFrame) : list CountRow :=
  fold_right (fun o g => groupby_add (obs_id o) g) [] df.

Definition obs_counter (df : DataFrame) (obs : Z) : list Z :=
  let df_cnt := groupby_id_count df in
  let lt_idx :=
    map cnt_index (filter (fun r => (cnt_alpha r <? obs)%Z) df_cnt) in
  lt_idx.

(** A [dict] with string keys: its items in insertion order, the keys
    distinct. *)
Fixpoint dict_setitem {V : Type} (k : string) (v : V)
  (d : list (string * V)) : list (string * V) :=
  match d with
  | [] => [(k, v)]
  | (k', v') :: tl =>
      if (k' =? k)%string then (k', v) :: tl
      else (k', v') :: dict_setitem k v tl
  end.

(** [dict(items)]. *)
Definition dict {V : Type} (items : list (string * V))
  : list (string * V) :=
  fold_left (fun d kv => dict_setitem (fst kv) (snd kv) d) items [].

(** [d[k]]. *)
Fixpoint dict_getitem {V : Type} (d : list (string * V)) (k : string)
  : outcome V :=
  match d with
  | [] => Raises (KeyError k)
  | (k', v) :: tl =>
      if (k' =? k)%string then Returns v else dict_getitem tl k
  end.

(** The class [MetaData]. *)
Module MetaData.

Record t (V : Type) : Type := mk {
  _data : list (string * V)
}.

Arguments mk {V} _.
Arguments _data {V} _.

(** [MetaData(data)]: the attribute [_data] is converted by [dict]. *)
Definition new {V : Type} (data : list (string * V)) : t V :=
  mk (dict data).

Definition __getitem__ {V : Type} (self : t V) (k : string) : outcome V :=
  dict_getitem (_data self) k.

Definition __iter__ {V : Type} (self : t V) : list string :=
  map fst (_data self).


Definition __getattr__ {V : Type} (self : t V) (a : string) : outcome V :=
  __getitem__ self a.

End MetaData.

(** An attribute of a plot object: a method, called with keyword arguments
    on the state of the axes it draws on, or a value that is not
    callable. *)
Inductive attribute (K A : Type) : Type :=
| Method (call : K -> A -> outcome unit * A)
| Value.

Arguments Method {K A} call.
Arguments Value {K A}.

(** The class [BasePlot]. *)
Module BasePlot.

Section Methods.

Variables K A : Type.

(** The attributes that the instance and its class have. *)
Variable lookup : string -> option (attribute K A).

(** [getattr(self.model_df.plot, kind)]. *)
Variable model_df_plot : string -> outcome (attribute K A).

Definition default_plot_kind : string := "curvefit".

Definition __getattr__ (kind : string) : outcome (attribute K A) :=
  model_df_plot kind.

(** [getattr(self, kind)]: [__getattr__] is asked only for what the
    instance and its class do not have. *)
Definition getattr (kind : string) : outcome (attribute K A) :=
  match lookup kind with
  | Some a => Returns a
  | None => __getattr__ kind
  end.

Definition __call__ (kind : option string) (kwargs : K) (ax : A)
  : outcome unit * A :=
  let kind :=
    match kind with
    | None => default_plot_kind
    | Some kind => kind
    end in
  if String.prefix "_" kind then
    (Raises (AttributeError ("Ivalid plot method '" ++ kind ++ "'")), ax)
  else
    match getattr kind with
    | Raises e => (Raises e, ax)
    | Returns method =>
        match method with
        | Value =>
            (Raises (AttributeError ("Ivalid plot method '" ++ kind ++ "'")),
             ax)
        | Method call => call kwargs ax
        end
    end.

End Methods.

End BasePlot.

End core.

(** ** scipy.interpolate.interp1d, linear kind *)

(** [interp1d(x, y)] with its default arguments, as [HG1G2_fit] calls it:
    the kind is linear, the knots are sorted by abscissa, and a call outside
    the range of the abscissas raises [ValueError]. *)

Module interpolate.

(** The stable sort of the knots by abscissa that [interp1d] applies when it
    is not told that they are sorted. *)
Fixpoint insert_knot (p : R * R) (l : list (R * R)) : list (R * R) :=
  match l with
  | [] => [p]
  | q :: tl =>
      if Rle_dec (fst p) (fst q) then p :: l else q :: insert_knot p tl
  end.

Definition sort_knots (l : list (R * R)) : list (R * R) :=
  fold_right insert_knot [] l.

(** The interpolant object: its sorted abscissas and the ordinates. *)
Record interp1d_obj : Type := mkInterp {
  interp_x : list R;
  interp_y : list R
}.

Definition interp1d (x y : list R) : result interp1d_obj :=
  if negb (length x =? length y)%nat then
    Raise (ValueError
      "x and y arrays must be equal in length along interpolation axis.")
  else if (length x <? 1)%nat then
    Raise (ValueError "x and y arrays must have at least 1 entries")
  else
    let knots := sort_knots (combine x y) in
    Ok (mkInterp (map fst knots) (map snd knots)).

(** [np.interp x xp fp]: the value at [x] of the piecewise linear function
    through the knots, constant outside them. *)
Fixpoint np_interp (x : R) (xp fp : list R) : R :=
  match xp, fp with
  | x0 :: xtl, y0 :: ytl =>
      match xtl, ytl with
      | x1 :: _, y1 :: _ =>
          if Rlt_dec x x1 then
            if Rle_dec x x0 then y0
            else (y1 - y0) / (x1 - x0) * (x - x0) + y0
          else np_interp x xtl ytl
      | _, _ => y0
      end
  | _, _ => 0
  end.

(** [np.searchsorted(xp, x)] on ascending [xp]: the number of knots strictly
    below [x]. *)
Fixpoint searchsorted (xp : list R) (x : R) : nat :=
  match xp with
  | [] => O
  | a :: tl => if Rlt_dec a x then S (searchsorted tl x) else O
  end.

(** [n.clip(lo, hi)]. *)
Definition clip (lo hi n : nat) : nat := Nat.min hi (Nat.max lo n).

(** [interp1d._call_linear]: the kernel of the linear kind for arrays that
    are not handed to [np.interp].  On the domain of the interpolant it has
    the values of [np_interp] (lemma [call_linear_np_interp]). *)
Definition _call_linear (f : interp1d_obj) (x_new : R) : R :=
  let x_new_indices :=
    clip 1 (length (interp_x f) - 1) (searchsorted (interp_x f) x_new) in
  let lo := (x_new_indices - 1)%nat in
  let hi := x_new_indices in
  let x_lo := nth lo (interp_x f) 0 in
  let x_hi := nth hi (interp_x f) 0 in
  let y_lo := nth lo (interp_y f) 0 in
  let y_hi := nth hi (interp_y f) 0 in
  let slope := (y_hi - y_lo) / (x_hi - x_lo) in
  slope * (x_new - x_lo) + y_lo.

(** Calling the interpolant: the value is computed, by [np.interp] for
    arrays of floats, then the bounds are checked ([bounds_error] is on for
    the linear kind). *)
Definition interp1d_call (f : interp1d_obj) (x_new : R) : result R :=
  let y_new := np_interp x_new (interp_x f) (interp_y f) in
  if Rlt_dec x_new (hd 0 (interp_x f)) then
    Raise (ValueError "A value in x_new is below the interpolation range.")
  else if Rlt_dec (last (interp_x f) 0) x_new then
    Raise (ValueError "A value in x_new is above the interpolation range.")
  else Ok y_new.

End interpolate.

(** ** The state-and-exception monad of a fit run *)

(** The basis vectors [(fi1, fi2, fi3)] given to the solver as [xdata]. *)
Definition basis : Type := (list R * list R * list R)%type.

(** A model function in the form [curve_fit] expects: [f(X, a, b, c)]. *)
Definition model_fn : Type := basis -> R -> R -> R -> list R.

(** The optimal parameters and their 3x3 covariance matrix, by rows. *)
Definition popt : Type := (R * R * R)%type.
Definition pcov : Type := (popt * popt * popt)%type.

(** One call [curve_fit(f, xdata, ydata)]. *)
Record curve_fit_call : Type := mkCall {
  call_f : model_fn;
  call_xdata : basis;
  call_ydata : list R
}.

Record world : Type := mkWorld {
  caller_df : DataFrame;
  curve_fit_log : list curve_fit_call
}.

Definition M (A : Type) : Type := world -> result A * world.

Definition ret {A : Type} (a : A) : M A := fun w => (Ok a, w).

Definition bind {A B : Type} (m : M A) (k : A -> M B) : M B :=
  fun w =>
    match m w with
    | (Ok a, w') => k a w'
    | (Raise e, w') => (Raise e, w')
    end.

Definition raise {A : Type} (e : exn) : M A := fun w => (Raise e, w).

Definition lift {A : Type} (r : result A) : M A := fun w => (r, w).

Notation "x <- m ;; k" := (bind m (fun x => k))
  (at level 61, m at next level, right associativity).
Notation "' p <- m ;; k" := (bind m (fun x => match x with p => k end))
  (at level 61, p pattern, m at next level, right associativity).

(** A [for] loop that threads the variables it assigns. *)
Fixpoint for_each {A B : Type} (body : B -> A -> M B) (l : list A) (b : B)
  : M B :=
  match l with
  | [] => ret b
  | x :: tl => b' <- body b x ;; for_each body tl b'
  end.

(** [enumerate(l)]. *)
Definition enumerate {A : Type} (l : list A) : list (nat * A) :=
  combine (seq 0 (length l)) l.

(** Reading the frame the caller passed. *)
Definition get_df : M DataFrame := fun w => (Ok (caller_df w), w).

(** The first row of every [id], in row order. *)
Fixpoint keep_first (seen : list Z) (df : DataFrame) : DataFrame :=
  match df with
  | [] => []
  | o :: tl =>
      if existsb (Z.eqb (obs_id o)) seen then keep_first seen tl
      else o :: keep_first (obs_id o :: seen) tl
  end.

(** [df.drop_duplicates(subset="id", keep="first", inplace=...)]: in place,
    the caller's frame is replaced and [None] is returned; otherwise the
    frame is left alone and the new frame is returned. *)
Definition drop_duplicates (inplace : bool) : M (option DataFrame) :=
  fun w =>
    let kept := keep_first [] (caller_df w) in
    if inplace then (Ok None, mkWorld kept (curve_fit_log w))
    else (Ok (Some kept), w).

(** ** numpy arrays *)

(** [np.empty(size)]: [size] cells of whatever the memory holds. *)
Definition np_empty {A : Type} (junk : nat -> A) (size : nat) : list A :=
  map junk (seq 0 size).

(** [arr[idx] = x]. *)
Fixpoint setitem {A : Type} (arr : list A) (idx : nat) (x : A)
  : result (list A) :=
  match arr, idx with
  | [], _ => Raise (IndexError "index is out of bounds")
  | _ :: tl, O => Ok (x :: tl)
  | y :: tl, S n =>
      match setitem tl n x with
      | Ok tl' => Ok (y :: tl')
      | Raise e => Raise e
      end
  end.

(** [np.sum] and [np.mean]. *)
Definition np_sum (l : list R) : R := fold_right Rplus 0 l.
Definition np_mean (l : list R) : R := np_sum l / INR (length l).

(** Elementwise operations on arrays of one length. *)
Fixpoint map2 (f : R -> R -> R) (l1 l2 : list R) : list R :=
  match l1, l2 with
  | x :: t1, y :: t2 => f x y :: map2 f t1 t2
  | _, _ => []
  end.

Definition np_add : list R -> list R -> list R := map2 Rplus.
Definition np_sub : list R -> list R -> list R := map2 Rminus.
Definition np_scale (a : R) (l : list R) : list R := map (Rmult a) l.
Definition np_sub_scalar (l : list R) (m : R) : list R :=
  map (fun x => x - m) l.
Definition np_square (l : list R) : list R := map (fun x => x ^ 2) l.
Definition np_log10 (x : R) : R := ln x / ln 10.

(** [np.diag(cov)]. *)
Definition np_diag (cov : pcov) : popt :=
  let '((c00, _, _), (_, c11, _), (_, _, c22)) := cov in (c00, c11, c22).

(** [d - arr] for a scalar [d]. *)
Definition np_rsub_scalar (d : R) (l : list R) : list R :=
  map (fun x => d - x) l.

(** [int(x)] of a float: the integer towards zero. *)
Definition py_int (x : R) : Z :=
  if Rle_dec 0 x then Int_part x else (- Int_part (- x))%Z.

(** ** matplotlib axes *)

(** A line of a plot: its points, the format string or the marker and
    line style it was drawn with, and its label. *)
Record Line2D : Type := mkLine {
  line_x : list R;
  line_y : list R;
  line_fmt : option string;
  line_marker : option string;
  line_linestyle : option string;
  line_label : string
}.

(** The state of an axes object, as far as the plots set it. *)
Record Axes : Type := mkAxes {
  yaxis_inverted : bool;
  title : string;
  xlabel : string;
  ylabel : string;
  lines : list Line2D;
  legend_anchor : option (R * R)
}.

(** [ax.invert_yaxis()]: the direction of the y axis is flipped. *)
Definition invert_yaxis (ax : Axes) : Axes :=
  mkAxes (negb (yaxis_inverted ax)) (title ax) (xlabel ax) (ylabel ax)
         (lines ax) (legend_anchor ax).

Definition set_title (ax : Axes) (s : string) : Axes :=
  mkAxes (yaxis_inverted ax) s (xlabel ax) (ylabel ax) (lines ax)
         (legend_anchor ax).

Definition set_xlabel (ax : Axes) (s : string) : Axes :=
  mkAxes (yaxis_inverted ax) (title ax) s (ylabel ax) (lines ax)
         (legend_anchor ax).

Definition set_ylabel (ax : Axes) (s : string) : Axes :=
  mkAxes (yaxis_inverted ax) (title ax) (xlabel ax) s (lines ax)
         (legend_anchor ax).

(** [ax.plot(x, y, ...)]: one more line. *)
Definition ax_plot (ax : Axes) (l : Line2D) : Axes :=
  mkAxes (yaxis_inverted ax) (title ax) (xlabel ax) (ylabel ax)
         (lines ax ++ [l]) (legend_anchor ax).

(** [ax.legend(bbox_to_anchor=...)]. *)
Definition ax_legend (ax : Axes) (bbox_to_anchor : R * R) : Axes :=
  mkAxes (yaxis_inverted ax) (title ax) (xlabel ax) (ylabel ax)
         (lines ax) (Some bbox_to_anchor).

(** ** pyedra/hg1g2_model.py *)

Module hg1g2_model.

(** A column of the result frame. *)
Inductive Column : Type :=
| IntColumn (l : list Z)
| FloatColumn (l : list R).

(** [pd.DataFrame({...})]: the columns, named, in the order of the dict. *)
Definition ModelFrame : Type := list (string * Column).

Inductive MetaValue : Type :=
| MetaArray (l : list R)
| MetaInterp (f : interpolate.interp1d_obj).

Definition MetaData : Type := list (string * MetaValue).

Record HG1G2Plot : Type := mkPlot {
  plot_model_df : ModelFrame
}.

Record PyedraFitDataFrame : Type := mkFit {
  model_df : ModelFrame;
  plot : HG1G2Plot;
  metadata : list (string * MetaData)
}.

(** The eight arrays the loop fills. *)
Record Columns : Type := mkColumns {
  id_column : list Z;
  H_1_2_column : list R;
  error_H_1_2_column : list R;
  G_1_column : list R;
  error_G_1_column : list R;
  G_2_column : list R;
  error_G_2_column : list R;
  R_column : list R
}.

Definition _HG1G2_model (X : basis) (a b c : R) : list R :=
  let '(x, y, z) := X in
  np_add (np_add (np_scale a x) (np_scale b y)) (np_scale c z).

Section Fit.

(** [datasets.load_penttila2016()]. *)
Variable load_penttila2016 : list Penttila2016Row.

(** [scipy.optimize.curve_fit(f, xdata, ydata)]. *)
Variable curve_fit : model_fn -> basis -> list R -> result (popt * pcov).

(** What [np.empty] finds in memory. *)
Variable junk_int : nat -> Z.
Variable junk_float : nat -> R.

(** A call of the solver, recorded in the log of the run. *)
Definition call_curve_fit (f : model_fn) (xdata : basis) (ydata : list R)
  : M (popt * pcov) :=
  fun w =>
    (curve_fit f xdata ydata,
     mkWorld (caller_df w) (curve_fit_log w ++ [mkCall f xdata ydata])).

(** The body of [for alpha_b in data.alpha]. *)
Definition append_basis (y_interp1 y_interp2 y_interp3 : R -> result R)
  (fi : basis) (alpha_b : R) : M basis :=
  let '(fi1, fi2, fi3) := fi in
  p1 <- lift (y_interp1 alpha_b) ;;
  let fi1 := fi1 ++ [p1] in
  p2 <- lift (y_interp2 alpha_b) ;;
  let fi2 := fi2 ++ [p2] in
  p3 <- lift (y_interp3 alpha_b) ;;
  let fi3 := fi3 ++ [p3] in
  ret (fi1, fi2, fi3).

(** The body of [for idx, id in enumerate(noob.id)]. *)
Definition fit_entity (y_interp1 y_interp2 y_interp3 : R -> result R)
  (cols : Columns) (entry : nat * Z) : M Columns :=
  let '(idx, id) := entry in
  df <- get_df ;;
  let data := select_id df id in
  ' (fi1, fi2, fi3) <-
    for_each (append_basis y_interp1 y_interp2 y_interp3)
             (map obs_alpha data) ([], [], []) ;;
  let v := map obs_v data in
  let v_fit := map (fun x => Rpower 10 (-0.4 * x)) v in
  ' (op, cov) <- call_curve_fit _HG1G2_model (fi1, fi2, fi3) v_fit ;;
  let '(a, b, c) := op in
  let '(var_a, var_b, var_c) := np_diag cov in
  let error_a := sqrt var_a in
  let error_b := sqrt var_b in
  let error_c := sqrt var_c in
  let H_1_2 := -2.5 * np_log10 (a + b + c) in
  let error_H_1_2 :=
    1.0857362 * sqrt (error_a ^ 2 + error_b ^ 2 + error_c ^ 2) / (a + b + c) in
  let G_1 := a / (a + b + c) in
  let error_G_1 :=
    sqrt (((b + c) * error_a) ^ 2 + (a * error_b) ^ 2 + (a * error_c) ^ 2)
    / ((a + b + c) ^ 2) in
  let G_2 := b / (a + b + c) in
  let error_G_2 :=
    sqrt ((b * error_a) ^ 2 + ((a + c) * error_b) ^ 2 + (b * error_c) ^ 2)
    / ((a + b + c) ^ 2) in
  let residuals := np_sub v_fit (_HG1G2_model (fi1, fi2, fi3) a b c) in
  let ss_res := np_sum (np_square residuals) in
  let ss_tot := np_sum (np_square (np_sub_scalar v_fit (np_mean v_fit))) in
  let r_squared := 1 - (ss_res / ss_tot) in
  c0 <- lift (setitem (id_column cols) idx id) ;;
  c1 <- lift (setitem (H_1_2_column cols) idx H_1_2) ;;
  c2 <- lift (setitem (error_H_1_2_column cols) idx error_H_1_2) ;;
  c3 <- lift (setitem (G_1_column cols) idx G_1) ;;
  c4 <- lift (setitem (error_G_1_column cols) idx error_G_1) ;;
  c5 <- lift (setitem (G_2_column cols) idx G_2) ;;
  c6 <- lift (setitem (error_G_2_column cols) idx error_G_2) ;;
  c7 <- lift (setitem (R_column cols) idx r_squared) ;;
  ret (mkColumns c0 c1 c2 c3 c4 c5 c6 c7).

Definition HG1G2_fit : M PyedraFitDataFrame :=
  df <- get_df ;;
  let lt := core.obs_counter df 3 in
  if (0 <? length lt)%nat then
    let lt_str := String.concat " - " (map str lt) in
    raise (ValueError
      ("Some asteroids has less than 3 observations: " ++ lt_str))
  else
    noob <- drop_duplicates false ;;
    match noob with
    | None => raise (TypeError "object of type 'NoneType' has no len()")
    | Some noob =>
        let size := length noob in
        let cols :=
          mkColumns (np_empty junk_int size) (np_empty junk_float size)
                    (np_empty junk_float size) (np_empty junk_float size)
                    (np_empty junk_float size) (np_empty junk_float size)
                    (np_empty junk_float size) (np_empty junk_float size) in
        let penttila2016 := load_penttila2016 in
        let alpha := map ref_alpha penttila2016 in
        let phi1 := map ref_phi1 penttila2016 in
        let phi2 := map ref_phi2 penttila2016 in
        let phi3 := map ref_phi3 penttila2016 in
        y_interp1 <- lift (interpolate.interp1d alpha phi1) ;;
        y_interp2 <- lift (interpolate.interp1d alpha phi2) ;;
        y_interp3 <- lift (interpolate.interp1d alpha phi3) ;;
        cols <- for_each (fit_entity (interpolate.interp1d_call y_interp1)
                                     (interpolate.interp1d_call y_interp2)
                                     (interpolate.interp1d_call y_interp3))
                         (enumerate (map obs_id noob)) cols ;;
        let model_df :=
          [ ("id", IntColumn (id_column cols));
            ("H12", FloatColumn (H_1_2_column cols));
            ("error_H12", FloatColumn (error_H_1_2_column cols));
            ("G1", FloatColumn (G_1_column cols));
            ("error_G1", FloatColumn (error_G_1_column cols));
            ("G2", FloatColumn (G_2_column cols));
            ("error_G2", FloatColumn (error_G_2_column cols));
            ("R", FloatColumn (R_column cols)) ]%string in
        let plotter := mkPlot model_df in
        c1 <- lift (interpolate.interp1d alpha phi1) ;;
        c2 <- lift (interpolate.interp1d alpha phi2) ;;
        c3 <- lift (interpolate.interp1d alpha phi3) ;;
        let pentilla_cache :=
          [ ("alpha", MetaArray (map ref_alpha penttila2016));
            ("phi1", MetaArray (map ref_phi1 penttila2016));
            ("phi2", MetaArray (map ref_phi2 penttila2016));
            ("phi3", MetaArray (map ref_phi3 penttila2016));
            ("y_interp1", MetaInterp c1);
            ("y_interp2", MetaInterp c2);
            ("y_interp3", MetaInterp c3) ]%string in
        let metadata := [ ("pentilla2016", pentilla_cache) ]%string in
        ret (mkFit model_df plotter metadata)
    end.

End Fit.

(** The values of a column, as the floats that [iterrows] makes of
    them. *)
Definition column_values (c : Column) : list R :=
  match c with
  | IntColumn l => map IZR l
  | FloatColumn l => l
  end.

(** The number of rows of a frame, whose columns have one length. *)
Definition frame_length (frame : ModelFrame) : nat :=
  match frame with
  | [] => O
  | (_, c) :: _ => length (column_values c)
  end.

(** [frame.iterrows()]: the rows, each with its values by column name. *)
Definition iterrows (frame : ModelFrame) : list (list (string * R)) :=
  map (fun i =>
         flat_map (fun nc =>
                     match nth_error (column_values (snd nc)) i with
                     | Some x => [(fst nc, x)]
                     | None => []
                     end) frame)
      (seq 0 (frame_length frame)).

(** [m_row.name]. *)
Fixpoint series_getattr (m_row : list (string * R)) (name : string)
  : outcome R :=
  match m_row with
  | [] =>
      Raises (AttributeError
                ("'Series' object has no attribute '" ++ name ++ "'"))
  | (k, x) :: tl =>
      if (k =? name)%string then Returns x else series_getattr tl name
  end.

(** The function [fit_y] of [curvefit], with the arrays it closes over. *)
Definition fit_y (fi1 fi2 fi3 : list R) (d e f : R) : list R :=
  let y :=
    np_rsub_scalar d
      (np_scale 2.5
         (map np_log10
              (np_add (np_add (np_scale e fi1) (np_scale f fi2))
                      (np_scale (1 - e - f) fi3)))) in
  y.

(** The loop [for alpha_b in data.alpha] of [curvefit]. *)
Fixpoint plot_basis (y_interp1 y_interp2 y_interp3 : R -> result R)
  (alphas : list R) (fi : basis) : result basis :=
  match alphas with
  | [] => Ok fi
  | alpha_b :: tl =>
      let '(fi1, fi2, fi3) := fi in
      match y_interp1 alpha_b with
      | Raise e => Raise e
      | Ok p1 =>
          let fi1 := fi1 ++ [p1] in
          match y_interp2 alpha_b with
          | Raise e => Raise e
          | Ok p2 =>
              let fi2 := fi2 ++ [p2] in
              match y_interp3 alpha_b with
              | Raise e => Raise e
              | Ok p3 =>
                  let fi3 := fi3 ++ [p3] in
                  plot_basis y_interp1 y_interp2 y_interp3 tl
                             (fi1, fi2, fi3)
              end
          end
      end
  end.

(** The body of [for idx, m_row in self.model_df.iterrows()]. *)
Definition plot_row (y_interp1 y_interp2 y_interp3 : R -> result R)
  (df : DataFrame) (ax : Axes) (m_row : list (string * R))
  : outcome unit * Axes :=
  match series_getattr m_row "id" with
  | Raises e => (Raises e, ax)
  | Returns row_id =>
      let data :=
        filter (fun o => if Req_dec_T (IZR (obs_id o)) row_id
                         then true else false) df in
      match plot_basis y_interp1 y_interp2 y_interp3 (map obs_alpha data)
                       ([], [], []) with
      | Raise e => (Raises (Exn e), ax)
      | Ok (fi1, fi2, fi3) =>
          match series_getattr m_row "H12" with
          | Raises e => (Raises e, ax)
          | Returns d =>
              match series_getattr m_row "G1" with
              | Raises e => (Raises e, ax)
              | Returns e =>
                  match series_getattr m_row "G2" with
                  | Raises e => (Raises e, ax)
                  | Returns f =>
                      let v_fit := fit_y fi1 fi2 fi3 d e f in
                      let ax :=
                        ax_plot ax
                          (mkLine (map obs_alpha data) v_fit (Some "--"%string)
                                  None None
                                  ("Fit " ++ str (py_int row_id))) in
                      let ax :=
                        ax_plot ax
                          (mkLine (map obs_alpha data) (map obs_v data) None
                                  (Some "o"%string) (Some "None"%string)
                                  ("Data " ++ str (py_int row_id))) in
                      (Returns tt, ax)
                  end
              end
          end
      end
  end.

(** The loop over the rows: it stops at the first exception. *)
Fixpoint plot_rows (body : Axes -> list (string * R) -> outcome unit * Axes)
  (rows : list (list (string * R))) (ax : Axes) : outcome unit * Axes :=
  match rows with
  | [] => (Returns tt, ax)
  | m_row :: tl =>
      match body ax m_row with
      | (Raises e, ax) => (Raises e, ax)
      | (Returns _, ax) => plot_rows body tl ax
      end
  end.

(** The keyword arguments of a plot method; [ax] is the state that the
    method is called on, that of the axes given or else of the current
    one. *)
Record plot_kwargs : Type := mkKwargs {
  kw_df : option DataFrame
}.

Section Plot.

(** [datasets.load_penttila2016()]. *)
Variable load_penttila2016 : list Penttila2016Row.

(** [getattr(frame.plot, kind)], of pandas. *)
Variable pandas_plot :
  ModelFrame -> string -> outcome (core.attribute plot_kwargs Axes).

(** [HG1G2Plot.curvefit(self, df, ax)]; it returns [ax]. *)
Definition curvefit (self : HG1G2Plot) (df : DataFrame) (ax : Axes)
  : outcome unit * Axes :=
  let penttila2016 := load_penttila2016 in
  let alphap := map ref_alpha penttila2016 in
  let phi1 := map ref_phi1 penttila2016 in
  let phi2 := map ref_phi2 penttila2016 in
  let phi3 := map ref_phi3 penttila2016 in
  match interpolate.interp1d alphap phi1 with
  | Raise e => (Raises (Exn e), ax)
  | Ok y_interp1 =>
      match interpolate.interp1d alphap phi2 with
      | Raise e => (Raises (Exn e), ax)
      | Ok y_interp2 =>
          match interpolate.interp1d alphap phi3 with
          | Raise e => (Raises (Exn e), ax)
          | Ok y_interp3 =>
              let ax := invert_yaxis ax in
              let ax := set_title ax "Phase curves" in
              let ax := set_xlabel ax "Phase angle" in
              let ax := set_ylabel ax "V" in
              match plot_rows
                      (plot_row (interpolate.interp1d_call y_interp1)
                                (interpolate.interp1d_call y_interp2)
                                (interpolate.interp1d_call y_interp3) df)
                      (iterrows (plot_model_df self)) ax with
              | (Raises e, ax) => (Raises e, ax)
              | (Returns _, ax) =>
                  let ax := ax_legend ax (1.05, 1) in
                  (Returns tt, ax)
              end
          end
      end
  end.

(** The attributes of an [HG1G2Plot] and of its classes whose names do not
    begin with an underscore. *)
Definition HG1G2Plot_lookup (self : HG1G2Plot) (kind : string)
  : option (core.attribute plot_kwargs Axes) :=
  if (kind =? "curvefit")%string then
    Some (core.Method
            (fun kwargs ax =>
               match kw_df kwargs with
               | None =>
                   (Raises (Exn (TypeError
                      "curvefit() missing 1 required positional argument: 'df'")),
                    ax)
               | Some df => curvefit self df ax
               end))
  else if (kind =? "model_df")%string then Some core.Value
  else if (kind =? "default_plot_kind")%string then Some core.Value
  else None.

(** [self(kind, **kwargs)] for an [HG1G2Plot]. *)
Definition HG1G2Plot_call (self : HG1G2Plot) (kind : option string)
  (kwargs : plot_kwargs) (ax : Axes) : outcome unit * Axes :=
  core.BasePlot.__call__ plot_kwargs Axes (HG1G2Plot_lookup self)
    (pandas_plot (plot_model_df self)) kind kwargs ax.

End Plot.

End hg1g2_model.

(** * Specification-level notions *)

(** An entity of a frame is an [id] that some row carries; its observations
    are the rows that carry it. *)
Definition entity (df : DataFrame) (i : Z) : Prop := In i (map obs_id df).

Definition n_obs (df : DataFrame) (i : Z) : Z :=
  Z.of_nat (length (select_id df i)).

(** The groups of [groupby] are in ascending order of their key. *)
Definition key_lt (r1 r2 : core.CountRow) : Prop :=
  (core.cnt_index r1 < core.cnt_index r2)%Z.

(** The count that a list of groups records for a key; 0 without a group. *)
Fixpoint count_of (i : Z) (g : list core.CountRow) : Z * Z :=
  match g with
  | [] => (0, 0)%Z
  | r :: tl =>
      if (core.cnt_index r =? i)%Z then (core.cnt_alpha r, core.cnt_v r) else count_of i tl
  end.


(** The least and the greatest element of a list of reals. *)
Definition Rlist_min (l : list R) : R :=
  match l with
  | [] => 0
  | a :: tl => fold_right Rmin a tl
  end.

Definition Rlist_max (l : list R) : R :=
  match l with
  | [] => 0
  | a :: tl => fold_right Rmax a tl
  end.

(** The alpha domain of a reference table: [min(alpha), max(alpha)]. *)
Definition alpha_min (table : list Penttila2016Row) : R :=
  Rlist_min (map ref_alpha table).

Definition alpha_max (table : list Penttila2016Row) : R :=
  Rlist_max (map ref_alpha table).

Definition in_domain (table : list Penttila2016Row) (x : R) : Prop :=
  alpha_min table <= x <= alpha_max table.

(** The interpolant that [HG1G2_fit] builds from the [alpha] column and one
    [phi] column of the table, and its value at a phase angle. *)
Definition table_interp (phi : Penttila2016Row -> R)
  (table : list Penttila2016Row) : result interpolate.interp1d_obj :=
  interpolate.interp1d (map ref_alpha table) (map phi table).

Definition y_interp (phi : Penttila2016Row -> R)
  (table : list Penttila2016Row) (x : R) : result R :=
  match table_interp phi table with
  | Ok f => interpolate.interp1d_call f x
  | Raise e => Raise e
  end.

(** The knots are in ascending order of their abscissa. *)
Definition knot_le (p q : R * R) : Prop := fst p <= fst q.

(** The rows of a table are in strictly ascending order of [alpha]. *)
Definition alpha_lt (r1 r2 : Penttila2016Row) : Prop :=
  ref_alpha r1 < ref_alpha r2.

(** The knots [(alpha, phi)] of a table. *)
Definition knots_of (phi : Penttila2016Row -> R)
  (table : list Penttila2016Row) : list (R * R) :=
  combine (map ref_alpha table) (map phi table).

(** The value of an interpolant of the table: [np.interp] over the sorted
    knots. *)
Definition interp_value (phi : Penttila2016Row -> R)
  (table : list Penttila2016Row) (x : R) : R :=
  interpolate.np_interp x
    (map fst (interpolate.sort_knots (knots_of phi table)))
    (map snd (interpolate.sort_knots (knots_of phi table))).

(** ** A fit run, read as a function *)

(** A row of the result table. *)
Record FitResult : Type := mkFitResult {
  fr_id : Z;
  fr_H12 : R;
  fr_error_H12 : R;
  fr_G1 : R;
  fr_error_G1 : R;
  fr_G2 : R;
  fr_error_G2 : R;
  fr_R : R
}.

(** The result frame with the given rows. *)
Definition frame_of (rows : list FitResult) : hg1g2_model.ModelFrame :=
  [ ("id", hg1g2_model.IntColumn (map fr_id rows));
    ("H12", hg1g2_model.FloatColumn (map fr_H12 rows));
    ("error_H12", hg1g2_model.FloatColumn (map fr_error_H12 rows));
    ("G1", hg1g2_model.FloatColumn (map fr_G1 rows));
    ("error_G1", hg1g2_model.FloatColumn (map fr_error_G1 rows));
    ("G2", hg1g2_model.FloatColumn (map fr_G2 rows));
    ("error_G2", hg1g2_model.FloatColumn (map fr_error_G2 rows));
    ("R", hg1g2_model.FloatColumn (map fr_R rows)) ]%string.

(** The eight arrays once the rows [rows] are written in front of the cells
    [rest] that are still to be written. *)
Definition cols_app (rows : list FitResult) (rest : hg1g2_model.Columns)
  : hg1g2_model.Columns :=
  hg1g2_model.mkColumns
    (map fr_id rows ++ hg1g2_model.id_column rest)
    (map fr_H12 rows ++ hg1g2_model.H_1_2_column rest)
    (map fr_error_H12 rows ++ hg1g2_model.error_H_1_2_column rest)
    (map fr_G1 rows ++ hg1g2_model.G_1_column rest)
    (map fr_error_G1 rows ++ hg1g2_model.error_G_1_column rest)
    (map fr_G2 rows ++ hg1g2_model.G_2_column rest)
    (map fr_error_G2 rows ++ hg1g2_model.error_G_2_column rest)
    (map fr_R rows ++ hg1g2_model.R_column rest).

(** The eight arrays have [n] cells each. *)
Definition cols_length (n : nat) (c : hg1g2_model.Columns) : Prop :=
  length (hg1g2_model.id_column c) = n
  /\ length (hg1g2_model.H_1_2_column c) = n
  /\ length (hg1g2_model.error_H_1_2_column c) = n
  /\ length (hg1g2_model.G_1_column c) = n
  /\ length (hg1g2_model.error_G_1_column c) = n
  /\ length (hg1g2_model.G_2_column c) = n
  /\ length (hg1g2_model.error_G_2_column c) = n
  /\ length (hg1g2_model.R_column c) = n.

(** The ids of a frame, each once, in the order of their first rows:
    [noob.id]. *)
Definition unique_ids (df : DataFrame) : list Z :=
  map obs_id (keep_first [] df).

(** The flux of an observation: the target of the fit. *)
Definition flux (v : R) : R := Rpower 10 (-0.4 * v).

(** The basis vectors that the inner loop builds, or its first exception. *)
Fixpoint basis_of (y1 y2 y3 : R -> result R) (alphas : list R)
  : result basis :=
  match alphas with
  | [] => Ok ([], [], [])
  | alpha_b :: tl =>
      match y1 alpha_b with
      | Raise e => Raise e
      | Ok p1 =>
          match y2 alpha_b with
          | Raise e => Raise e
          | Ok p2 =>
              match y3 alpha_b with
              | Raise e => Raise e
              | Ok p3 =>
                  match basis_of y1 y2 y3 tl with
                  | Raise e => Raise e
                  | Ok (fi1, fi2, fi3) =>
                      Ok (p1 :: fi1, p2 :: fi2, p3 :: fi3)
                  end
              end
          end
      end
  end.

(** The row that one pass of the outer loop writes, from what the solver
    returned. *)
Definition entity_row (id : Z) (fi1 fi2 fi3 v_fit : list R)
  (op : popt) (cov : pcov) : FitResult :=
  let '(a, b, c) := op in
  let '(var_a, var_b, var_c) := np_diag cov in
  let error_a := sqrt var_a in
  let error_b := sqrt var_b in
  let error_c := sqrt var_c in
  let H_1_2 := -2.5 * np_log10 (a + b + c) in
  let error_H_1_2 :=
    1.0857362 * sqrt (error_a ^ 2 + error_b ^ 2 + error_c ^ 2) / (a + b + c) in
  let G_1 := a / (a + b + c) in
  let error_G_1 :=
    sqrt (((b + c) * error_a) ^ 2 + (a * error_b) ^ 2 + (a * error_c) ^ 2)
    / ((a + b + c) ^ 2) in
  let G_2 := b / (a + b + c) in
  let error_G_2 :=
    sqrt ((b * error_a) ^ 2 + ((a + c) * error_b) ^ 2 + (b * error_c) ^ 2)
    / ((a + b + c) ^ 2) in
  let residuals :=
    np_sub v_fit (hg1g2_model._HG1G2_model (fi1, fi2, fi3) a b c) in
  let ss_res := np_sum (np_square residuals) in
  let ss_tot := np_sum (np_square (np_sub_scalar v_fit (np_mean v_fit))) in
  let r_squared := 1 - (ss_res / ss_tot) in
  mkFitResult id H_1_2 error_H_1_2 G_1 error_G_1 G_2 error_G_2 r_squared.

Section RunSummary.

Variable curve_fit : model_fn -> basis -> list R -> result (popt * pcov).
Variables y1 y2 y3 : R -> result R.
Variable df : DataFrame.

(** One pass of the outer loop: its row or its exception, and the calls of
    the solver it makes. *)
Definition entity_fit (id : Z) : result FitResult * list curve_fit_call :=
  let data := select_id df id in
  match basis_of y1 y2 y3 (map obs_alpha data) with
  | Raise e => (Raise e, [])
  | Ok (fi1, fi2, fi3) =>
      let v_fit := map flux (map obs_v data) in
      let call := mkCall hg1g2_model._HG1G2_model (fi1, fi2, fi3) v_fit in
      match curve_fit hg1g2_model._HG1G2_model (fi1, fi2, fi3) v_fit with
      | Raise e => (Raise e, [call])
      | Ok (op, cov) => (Ok (entity_row id fi1 fi2 fi3 v_fit op cov), [call])
      end
  end.

(** The outer loop: its rows or its first exception, and the calls of the
    solver up to there. *)
Fixpoint fit_all (ids : list Z) : result (list FitResult) * list curve_fit_call :=
  match ids with
  | [] => (Ok [], [])
  | id :: tl =>
      match entity_fit id with
      | (Raise e, calls) => (Raise e, calls)
      | (Ok row, calls) =>
          match fit_all tl with
          | (Raise e, calls') => (Raise e, calls ++ calls')
          | (Ok rows, calls') => (Ok (row :: rows), calls ++ calls')
          end
      end
  end.

End RunSummary.

(** The metadata that a run attaches to its result. *)
Definition metadata_of (table : list Penttila2016Row)
  (c1 c2 c3 : interpolate.interp1d_obj)
  : list (string * hg1g2_model.MetaData) :=
  [ ("pentilla2016",
     [ ("alpha", hg1g2_model.MetaArray (map ref_alpha table));
       ("phi1", hg1g2_model.MetaArray (map ref_phi1 table));
       ("phi2", hg1g2_model.MetaArray (map ref_phi2 table));
       ("phi3", hg1g2_model.MetaArray (map ref_phi3 table));
       ("y_interp1", hg1g2_model.MetaInterp c1);
       ("y_interp2", hg1g2_model.MetaInterp c2);
       ("y_interp3", hg1g2_model.MetaInterp c3) ]) ]%string.

(** The message of the exception for too few observations. *)
Definition few_observations_msg (lt : list Z) : string :=
  ("Some asteroids has less than 3 observations: "
   ++ String.concat " - " (map str lt))%string.

(** The world after the solver was called [calls] more times. *)
Definition logged (w : world) (calls : list curve_fit_call) : world :=
  mkWorld (caller_df w) (curve_fit_log w ++ calls).

(** The whole of [HG1G2_fit], read as a function of the world it starts
    in: the result or the exception, and the world it ends in. *)
Definition run_summary (table : list Penttila2016Row)
  (curve_fit : model_fn -> basis -> list R -> result (popt * pcov))
  (w : world) : result hg1g2_model.PyedraFitDataFrame * world :=
  let df := caller_df w in
  let lt := core.obs_counter df 3 in
  if (0 <? length lt)%nat then
    (Raise (ValueError (few_observations_msg lt)), w)
  else
    match table_interp ref_phi1 table with
    | Raise e => (Raise e, w)
    | Ok c1 =>
        match table_interp ref_phi2 table with
        | Raise e => (Raise e, w)
        | Ok c2 =>
            match table_interp ref_phi3 table with
            | Raise e => (Raise e, w)
            | Ok c3 =>
                match fit_all curve_fit (y_interp ref_phi1 table)
                        (y_interp ref_phi2 table) (y_interp ref_phi3 table)
                        df (unique_ids df) with
                | (Raise e, calls) => (Raise e, logged w calls)
                | (Ok rows, calls) =>
                    (Ok (hg1g2_model.mkFit (frame_of rows)
                           (hg1g2_model.mkPlot (frame_of rows))
                           (metadata_of table c1 c2 c3)),
                     logged w calls)
                end
            end
        end
    end.

(** ** The observations of an entity and what is fitted to them *)

(** The phase angles of an entity's observations, in row order. *)
Definition entity_alphas (df : DataFrame) (i : Z) : list R :=
  map obs_alpha (select_id df i).

(** The basis vectors of an entity: the three interpolants at its phase
    angles. *)
Definition entity_basis (table : list Penttila2016Row) (df : DataFrame)
  (i : Z) : basis :=
  (map (interp_value ref_phi1 table) (entity_alphas df i),
   map (interp_value ref_phi2 table) (entity_alphas df i),
   map (interp_value ref_phi3 table) (entity_alphas df i)).

(** The target of an entity's fit: the fluxes of its magnitudes. *)
Definition entity_target (df : DataFrame) (i : Z) : list R :=
  map flux (map obs_v (select_id df i)).

(** The call of the solver for an entity. *)
Definition entity_call (table : list Penttila2016Row) (df : DataFrame)
  (i : Z) : curve_fit_call :=
  mkCall hg1g2_model._HG1G2_model (entity_basis table df i)
         (entity_target df i).

(** The row of an entity, from what the solver returned for it. *)
Definition fitted_row (table : list Penttila2016Row) (df : DataFrame)
  (i : Z) (op : popt) (cov : pcov) : FitResult :=
  entity_row i (map (interp_value ref_phi1 table) (entity_alphas df i))
               (map (interp_value ref_phi2 table) (entity_alphas df i))
               (map (interp_value ref_phi3 table) (entity_alphas df i))
               (entity_target df i) op cov.

(** An entity is fitted into a row: its phase angles are in the domain of
    the table and the solver returned, for its call, what the row is made
    from. *)
Definition fitted (table : list Penttila2016Row)
  (curve_fit : model_fn -> basis -> list R -> result (popt * pcov))
  (df : DataFrame) (i : Z) (row : FitResult) : Prop :=
  Forall (in_domain table) (entity_alphas df i)
  /\ exists op cov,
       curve_fit hg1g2_model._HG1G2_model (entity_basis table df i)
                 (entity_target df i) = Ok (op, cov)
       /\ row = fitted_row table df i op cov.

(** The position of the first occurrence of [i] in [l]. *)
Fixpoint first_index (i : Z) (l : list Z) : nat :=
  match l with
  | [] => O
  | x :: tl => if (x =? i)%Z then O else S (first_index i tl)
  end.

(** The ids [l] are those of the entities of [df], each once, in the order
    of their first occurrence in [df]. *)
Definition first_occurrence_order (df : DataFrame) (l : list Z) : Prop :=
  NoDup l
  /\ (forall i, In i l <-> entity df i)
  /\ StronglySorted lt (map (fun i => first_index i (map obs_id df)) l).

(** The out-of-range messages of an interpolant. *)
Definition out_of_range (msg : string) : Prop :=
  msg = "A value in x_new is below the interpolation range."%string
  \/ msg = "A value in x_new is above the interpolation range."%string.

(** ** The derived parameters, as the specification words them *)

Definition log10 (x : R) : R := ln x / ln 10.

(** The sum of [f] over the observations [data]. *)
Definition sum_over (f : Observation -> R) (data : DataFrame) : R :=
  fold_right (fun o acc => f o + acc) 0 data.

(** The target of an observation: [10^(-0.4 v)]. *)
Definition target_flux (o : Observation) : R := Rpower 10 (-0.4 * obs_v o).

(** The model at an observation: [a*fi1 + b*fi2 + c*fi3], the three
    interpolants taken at the phase angle of the observation. *)
Definition model_flux (table : list Penttila2016Row) (a b c : R)
  (o : Observation) : R :=
  a * interp_value ref_phi1 table (obs_alpha o)
  + b * interp_value ref_phi2 table (obs_alpha o)
  + c * interp_value ref_phi3 table (obs_alpha o).

(** The sum of the squared residuals of the model against the target. *)
Definition ss_residuals (table : list Penttila2016Row) (data : DataFrame)
  (a b c : R) : R :=
  sum_over (fun o => (target_flux o - model_flux table a b c o)²) data.

Definition mean_target (data : DataFrame) : R :=
  sum_over target_flux data / INR (length data).

Definition ss_total (data : DataFrame) : R :=
  sum_over (fun o => (target_flux o - mean_target data)²) data.

(** The row [row] holds the parameters derived from the coefficients
    [(a, b, c)] and their standard errors [(sa, sb, sc)]. *)
Definition derived_from (row : FitResult) (table : list Penttila2016Row)
  (data : DataFrame) (a b c sa sb sc : R) : Prop :=
  let s := a + b + c in
  fr_H12 row = -2.5 * log10 s
  /\ fr_error_H12 row = 1.0857362 * sqrt (sa² + sb² + sc²) / s
  /\ fr_G1 row = a / s
  /\ fr_error_G1 row = sqrt (((b + c) * sa)² + (a * sb)² + (a * sc)²) / s²
  /\ fr_G2 row = b / s
  /\ fr_error_G2 row = sqrt ((b * sa)² + ((a + c) * sb)² + (b * sc)²) / s²
  /\ fr_R row = 1 - ss_residuals table data a b c / ss_total data.

(** The entities of a frame are fitted into the rows [rows], in the order
    of [noob.id]. *)
Definition fitted_rows (table : list Penttila2016Row)
  (curve_fit : model_fn -> basis -> list R -> result (popt * pcov))
  (df : DataFrame) (rows : list FitResult) : Prop :=
  Forall2 (fitted table curve_fit df) (unique_ids df) rows.

(** ** The solver as a least-squares solver *)

(** The sum of the squared residuals of [f(xdata, a, b, c)] against
    [ydata]: what [curve_fit] minimises. *)
Definition cost (f : model_fn) (xdata : basis) (ydata : list R)
  (a b c : R) : R :=
  np_sum (np_square (np_sub ydata (f xdata a b c))).

(** The parameters that the solver returns for the model of [HG1G2_fit],
    which is linear in them, are a least-squares solution. *)
Definition least_squares_solver
  (curve_fit : model_fn -> basis -> list R -> result (popt * pcov)) : Prop :=
  forall xdata ydata a b c cov,
    curve_fit hg1g2_model._HG1G2_model xdata ydata = Ok ((a, b, c), cov) ->
    forall a' b' c',
      cost hg1g2_model._HG1G2_model xdata ydata a b c
      <= cost hg1g2_model._HG1G2_model xdata ydata a' b' c'.

(** ** A small reference table, a frame and a solver to run the fit on *)

(** A solver that returns the parameters [(a, b, c)] with the covariance
    [cov] when the model fits the data exactly with them, and that gives up
    otherwise. *)
Definition exact_solver (a b c : R) (cov : pcov)
  : model_fn -> basis -> list R -> result (popt * pcov) :=
  fun f xdata ydata =>
    if list_eq_dec Req_dec_T ydata (f xdata a b c)
    then Ok ((a, b, c), cov)
    else Raise (RuntimeError "Optimal parameters not found").

Definition zero_cov : pcov := ((0, 0, 0), (0, 0, 0), (0, 0, 0)).

Definition demo_table : list Penttila2016Row :=
  [ mkRef 0 1 1 1;
    mkRef 10 0.1 0.5 0.2;
    mkRef 30 0.01 0.25 0;
    mkRef 60 0.001 0.125 0 ].

(** Two entities, 7 and 3, with four observations each at the knots of
    [demo_table]; their fluxes are the [phi1] column. *)
Definition demo_df : DataFrame :=
  [ mkObs 7 0 0; mkObs 3 10 2.5; mkObs 7 10 2.5; mkObs 3 30 5;
    mkObs 7 30 5; mkObs 3 0 0; mkObs 7 60 7.5; mkObs 3 60 7.5 ].

Definition demo_solver : model_fn -> basis -> list R -> result (popt * pcov) :=
  exact_solver 1 0 0 zero_cov.

Definition demo_world : world := mkWorld demo_df [].

Definition demo_rows : list FitResult :=
  [ fitted_row demo_table demo_df 7 (1, 0, 0) zero_cov;
    fitted_row demo_table demo_df 3 (1, 0, 0) zero_cov ].

Definition demo_interp (phi : Penttila2016Row -> R)
  : interpolate.interp1d_obj :=
  interpolate.mkInterp
    (map fst (interpolate.sort_knots (knots_of phi demo_table)))
    (map snd (interpolate.sort_knots (knots_of phi demo_table))).

Definition demo_result : hg1g2_model.PyedraFitDataFrame :=
  hg1g2_model.mkFit (frame_of demo_rows)
    (hg1g2_model.mkPlot (frame_of demo_rows))
    (metadata_of demo_table (demo_interp ref_phi1) (demo_interp ref_phi2)
                 (demo_interp ref_phi3)).

Definition demo_world' : world :=
  logged demo_world
    [ entity_call demo_table demo_df 7; entity_call demo_table demo_df 3 ].

(** The frame of the specification's example: entity 1 with four
    observations and entity 2 with two. *)
Definition few_df : DataFrame :=
  [ mkObs 1 0 0; mkObs 2 10 2.5; mkObs 1 10 2.5; mkObs 1 30 5;
    mkObs 2 30 5; mkObs 1 60 7.5 ].

(** ** A fit whose coefficients sum to a negative number *)

(** One entity with four observations at knots of [cx_table], of fluxes
    10, 10, 10 and 1. *)
Definition cx_table : list Penttila2016Row :=
  [ mkRef 0 1 1 1;
    mkRef 10 0.8 0.8 0.4;
    mkRef 20 0.6 0.6 0.3;
    mkRef 40 0.3 0.5 0;
    mkRef 60 0.2 0.4 0 ].

Definition cx_df : DataFrame :=
  [ mkObs 1 10 (-2.5); mkObs 1 20 (-2.5); mkObs 1 40 (-2.5); mkObs 1 60 0 ].

Definition cx_basis : basis :=
  ([0.8; 0.6; 0.3; 0.2], [0.8; 0.6; 0.5; 0.4], [0.4; 0.3; 0; 0]).

Definition cx_target : list R := [10; 10; 10; 1].

(** The least-squares solution for [cx_basis] and [cx_target] is
    [(175, -85, -152)]; it leaves the residuals [(-1.2, 1.6, 0, 0)], of
    squares summing to 4, and its covariance is 4 / (4 - 3) times the
    inverse of [J^T J]. *)
Definition cx_cov : pcov :=
  ((4100, -2300, -3600), (-2300, 1300, 2000), (-3600, 2000, 3216)).

Definition cx_solver : model_fn -> basis -> list R -> result (popt * pcov) :=
  fun f xdata ydata =>
    if list_eq_dec Req_dec_T (fst (fst xdata)) (fst (fst cx_basis)) then
      if list_eq_dec Req_dec_T (snd (fst xdata)) (snd (fst cx_basis)) then
        if list_eq_dec Req_dec_T (snd xdata) (snd cx_basis) then
          if list_eq_dec Req_dec_T ydata cx_target then
            Ok ((175, -85, -152), cx_cov)
          else Raise (RuntimeError "Optimal parameters not found")
        else Raise (RuntimeError "Optimal parameters not found")
      else Raise (RuntimeError "Optimal parameters not found")
    else Raise (RuntimeError "Optimal parameters not found").

Definition cx_world : world := mkWorld cx_df [].

Definition cx_row : FitResult :=
  fitted_row cx_table cx_df 1 (175, -85, -152) cx_cov.

Definition cx_interp (phi : Penttila2016Row -> R)
  : interpolate.interp1d_obj :=
  interpolate.mkInterp
    (map fst (interpolate.sort_knots (knots_of phi cx_table)))
    (map snd (interpolate.sort_knots (knots_of phi cx_table))).

Definition cx_result : hg1g2_model.PyedraFitDataFrame :=
  hg1g2_model.mkFit (frame_of [cx_row])
    (hg1g2_model.mkPlot (frame_of [cx_row]))
    (metadata_of cx_table (cx_interp ref_phi1) (cx_interp ref_phi2)
                 (cx_interp ref_phi3)).

Definition cx_world' : world :=
  logged cx_world [ entity_call cx_table cx_df 1 ].

(** A property of each of the three interpolants of [HG1G2_fit]. *)
Definition three_interpolants (P : (Penttila2016Row -> R) -> Prop) : Prop :=
  P ref_phi1 /\ P ref_phi2 /\ P ref_phi3.

(** The names of the columns of the result table. *)
Definition result_fields : list string :=
  [ "id"; "H12"; "error_H12"; "G1"; "error_G1"; "G2"; "error_G2"; "R" ]%string.

(** The matrix [J^T J] of the model for the basis vectors [X], and the
    product of two 3x3 matrices. *)
Definition dot (u v : list R) : R := np_sum (map2 Rmult u v).

Definition gram (X : basis) : pcov :=
  let '(x, y, z) := X in
  ((dot x x, dot x y, dot x z),
   (dot y x, dot y y, dot y z),
   (dot z x, dot z y, dot z z)).

Definition mat_mul (A B : pcov) : pcov :=
  let '((a00, a01, a02), (a10, a11, a12), (a20, a21, a22)) := A in
  let '((b00, b01, b02), (b10, b11, b12), (b20, b21, b22)) := B in
  ((a00 * b00 + a01 * b10 + a02 * b20,
    a00 * b01 + a01 * b11 + a02 * b21,
    a00 * b02 + a01 * b12 + a02 * b22),
   (a10 * b00 + a11 * b10 + a12 * b20,
    a10 * b01 + a11 * b11 + a12 * b21,
    a10 * b02 + a11 * b12 + a12 * b22),
   (a20 * b00 + a21 * b10 + a22 * b20,
    a20 * b01 + a21 * b11 + a22 * b21,
    a20 * b02 + a21 * b12 + a22 * b22)).

(** The three errors of every row of every returned table are
    non-negative. *)
Definition errors_nonneg : Prop :=
  forall table curve_fit junk_int junk_float w w' res rows,
    hg1g2_model.HG1G2_fit table curve_fit junk_int junk_float w = (Ok res, w') ->
    hg1g2_model.model_df res = frame_of rows ->
    Forall (fun row => 0 <= fr_error_H12 row
                       /\ 0 <= fr_error_G1 row
                       /\ 0 <= fr_error_G2 row) rows.

(** ** More frames to run the fit on *)


(** The result table without rows. *)
Definition empty_model_df : hg1g2_model.ModelFrame :=
  [ ("id", hg1g2_model.IntColumn []);
    ("H12", hg1g2_model.FloatColumn []);
    ("error_H12", hg1g2_model.FloatColumn []);
    ("G1", hg1g2_model.FloatColumn []);
    ("error_G1", hg1g2_model.FloatColumn []);
    ("G2", hg1g2_model.FloatColumn []);
    ("error_G2", hg1g2_model.FloatColumn []);
    ("R", hg1g2_model.FloatColumn []) ]%string.

(** ** What [curvefit] draws *)











(** The names of the items of the cache of a run, in order. *)
Definition cache_keys : list string :=
  [ "alpha"; "phi1"; "phi2"; "phi3"; "y_interp1"; "y_interp2";
    "y_interp3" ]%string.

(** The exception of a plot kind that is refused. *)
Definition invalid_plot_method (kind : string) : exception :=
  AttributeError ("Ivalid plot method '" ++ kind ++ "'").

(** * The observation counter *)

Section ObsCounter.

Import core.

Lemma n_obs_cons (o : Observation) (df : DataFrame) (i : Z) :
  n_obs (o :: df) i
  = ((if (obs_id o =? i)%Z then 1 else 0) + n_obs df i)%Z.
Proof.
  unfold n_obs, select_id. simpl.
  destruct (obs_id o =? i)%Z; simpl length; lia.
Qed.

Lemma n_obs_nonneg (df : DataFrame) (i : Z) : (0 <= n_obs df i)%Z.
Proof. unfold n_obs. lia. Qed.

Lemma entity_n_obs (df : DataFrame) (i : Z) :
  entity df i <-> (0 < n_obs df i)%Z.
Proof.
  unfold entity. induction df as [|o df IH].
  - simpl. unfold n_obs. simpl. split; [tauto | lia].
  - rewrite n_obs_cons. simpl. pose proof (n_obs_nonneg df i).
    destruct (Z.eqb_spec (obs_id o) i) as [E|E].
    + split; [lia | auto].
    + rewrite <- IH. split; [intros [?|?]; [contradiction | assumption] | auto].
Qed.

(** The rows of [groupby_add k g], for groups [g] in ascending key order. *)
Lemma groupby_add_sorted (k : Z) (g : list CountRow) :
  StronglySorted key_lt g -> StronglySorted key_lt (groupby_add k g).
Proof.
  induction g as [|r tl IH]; intros Hs; simpl.
  - repeat constructor.
  - inversion Hs as [|? ? Htl Hall]; subst.
    destruct (Z.ltb_spec k (cnt_index r)) as [Hlt|Hge].
    + constructor; [assumption|]. constructor; [exact Hlt|].
      rewrite Forall_forall in *. intros r' Hr'. unfold key_lt in *.
      specialize (Hall r' Hr'). simpl. lia.
    + destruct (Z.eqb_spec k (cnt_index r)) as [E|E].
      * constructor; [assumption|]. rewrite Forall_forall in *.
        intros r' Hr'. unfold key_lt in *. specialize (Hall r' Hr').
        simpl. lia.
      * constructor; [apply IH; assumption|].
        rewrite Forall_forall in *. intros r' Hr'.
        assert (Hcase : r' = mkCount k 1 1 \/ cnt_index r' = k \/ In r' tl).
        { clear - Hr'. induction tl as [|q tl IHtl]; simpl in Hr'.
          - destruct Hr' as [<-|[]]. now left.
          - destruct (k <? cnt_index q)%Z.
            + destruct Hr' as [<-|Hr']; [now left | right; right; exact Hr'].
            + destruct (k =? cnt_index q)%Z.
              * destruct Hr' as [<-|Hr']; [right; left; reflexivity|].
                right; right; now right.
              * destruct Hr' as [<-|Hr']; [right; right; now left|].
                destruct (IHtl Hr') as [?|[?|?]]; auto.
                right; right; now right. }
        unfold key_lt in *.
        destruct Hcase as [->|[Hk|Hin]]; simpl; try lia.
        apply Hall; assumption.
Qed.

Lemma count_of_absent (i : Z) (g : list CountRow) :
  Forall (fun r => (i < cnt_index r)%Z) g -> count_of i g = (0, 0)%Z.
Proof.
  induction 1 as [|r tl Hr _ IH]; simpl; [reflexivity|].
  destruct (Z.eqb_spec (cnt_index r) i); [lia | exact IH].
Qed.

Lemma count_of_groupby_add (k i : Z) (g : list CountRow) :
  StronglySorted key_lt g ->
  count_of i (groupby_add k g)
  = if (k =? i)%Z
    then ((fst (count_of i g) + 1)%Z, (snd (count_of i g) + 1)%Z)
    else count_of i g.
Proof.
  induction g as [|r tl IH]; intros Hs; simpl.
  - destruct (Z.eqb_spec k i); reflexivity.
  - inversion Hs as [|? ? Htl Hall]; subst.
    destruct (Z.ltb_spec k (cnt_index r)) as [Hlt|Hge]; simpl.
    + destruct (Z.eqb_spec k i) as [->|E].
      * destruct (Z.eqb_spec (cnt_index r) i); [lia|].
        rewrite count_of_absent; [reflexivity|].
        eapply Forall_impl; [|exact Hall]. unfold key_lt. intros; simpl in *; lia.
      * reflexivity.
    + destruct (Z.eqb_spec k (cnt_index r)) as [E|E]; simpl.
      * subst k. destruct (Z.eqb_spec (cnt_index r) i); reflexivity.
      * destruct (Z.eqb_spec (cnt_index r) i) as [E'|E'].
        -- destruct (Z.eqb_spec k i); [lia | reflexivity].
        -- apply IH; assumption.
Qed.

Lemma groupby_id_count_sorted (df : DataFrame) :
  StronglySorted key_lt (groupby_id_count df).
Proof.
  induction df as [|o df IH]; simpl; [constructor|].
  apply groupby_add_sorted; exact IH.
Qed.

Lemma count_of_groupby (df : DataFrame) (i : Z) :
  count_of i (groupby_id_count df) = (n_obs df i, n_obs df i).
Proof.
  induction df as [|o df IH]; simpl; [reflexivity|].
  rewrite count_of_groupby_add by apply groupby_id_count_sorted.
  rewrite IH, n_obs_cons. simpl.
  destruct (obs_id o =? i)%Z; f_equal; lia.
Qed.

Lemma count_of_In (g : list CountRow) (r : CountRow) :
  StronglySorted key_lt g -> In r g ->
  count_of (cnt_index r) g = (cnt_alpha r, cnt_v r).
Proof.
  induction g as [|q tl IH]; intros Hs Hin; [contradiction|].
  inversion Hs as [|? ? Htl Hall]; subst. simpl.
  destruct Hin as [->|Hin].
  - now rewrite Z.eqb_refl.
  - rewrite Forall_forall in Hall. specialize (Hall r Hin). unfold key_lt in Hall.
    destruct (Z.eqb_spec (cnt_index q) (cnt_index r)); [lia|].
    apply IH; assumption.
Qed.

Lemma count_of_pos_In (g : list CountRow) (i : Z) :
  (0 < fst (count_of i g))%Z -> exists r, In r g /\ cnt_index r = i.
Proof.
  induction g as [|q tl IH]; simpl; [lia|].
  destruct (Z.eqb_spec (cnt_index q) i) as [E|E]; intros H.
  - exists q. auto.
  - destruct (IH H) as [r [? ?]]. exists r. auto.
Qed.

Lemma groupby_add_pos (k : Z) (g : list CountRow) :
  Forall (fun r => (0 < cnt_alpha r)%Z) g ->
  Forall (fun r => (0 < cnt_alpha r)%Z) (groupby_add k g).
Proof.
  induction 1 as [|r tl Hr Htl IH]; simpl.
  - constructor; [simpl; lia | constructor].
  - destruct (k <? cnt_index r)%Z.
    + constructor; [simpl; lia|]. constructor; assumption.
    + destruct (k =? cnt_index r)%Z.
      * constructor; [simpl; lia | assumption].
      * constructor; assumption.
Qed.

Lemma groupby_id_count_pos (df : DataFrame) :
  Forall (fun r => (0 < cnt_alpha r)%Z) (groupby_id_count df).
Proof.
  induction df as [|o df IH]; simpl; [constructor|].
  apply groupby_add_pos; exact IH.
Qed.

(** Every group of [df.groupby("id").count()] is an entity with its number
    of rows, and every entity has its group. *)
Lemma groupby_id_count_rows (df : DataFrame) (r : CountRow) :
  In r (groupby_id_count df) ->
  entity df (cnt_index r) /\ cnt_alpha r = n_obs df (cnt_index r)
  /\ cnt_v r = n_obs df (cnt_index r).
Proof.
  intros Hin.
  pose proof (count_of_In _ _ (groupby_id_count_sorted df) Hin) as H.
  rewrite count_of_groupby in H. injection H as H1 H2.
  assert (Hpos : (0 < cnt_alpha r)%Z).
  { pose proof (groupby_id_count_pos df) as Hall.
    rewrite Forall_forall in Hall. apply Hall. exact Hin. }
  split; [|split]; try congruence.
  apply entity_n_obs. lia.
Qed.

Lemma groupby_id_count_entity (df : DataFrame) (i : Z) :
  entity df i ->
  exists r, In r (groupby_id_count df) /\ cnt_index r = i.
Proof.
  intros H. apply entity_n_obs in H.
  apply count_of_pos_In. rewrite count_of_groupby. exact H.
Qed.

Lemma In_obs_counter (df : DataFrame) (obs i : Z) :
  In i (obs_counter df obs) <-> entity df i /\ (n_obs df i < obs)%Z.
Proof.
  unfold obs_counter. rewrite in_map_iff. split.
  - intros [r [<- Hr]]. apply filter_In in Hr. destruct Hr as [Hr Hlt].
    destruct (groupby_id_count_rows _ _ Hr) as [He [Ha _]].
    split; [exact He|]. apply Z.ltb_lt in Hlt. lia.
  - intros [He Hlt]. destruct (groupby_id_count_entity _ _ He) as [r [Hr <-]].
    exists r. split; [reflexivity|]. apply filter_In. split; [exact Hr|].
    destruct (groupby_id_count_rows _ _ Hr) as [_ [Ha _]].
    apply Z.ltb_lt. lia.
Qed.

Lemma NoDup_obs_counter (df : DataFrame) (obs : Z) :
  NoDup (obs_counter df obs).
Proof.
  unfold obs_counter.
  assert (Hs : StronglySorted key_lt
                 (filter (fun r => (cnt_alpha r <? obs)%Z) (groupby_id_count df))).
  { generalize (groupby_id_count_sorted df).
    generalize (groupby_id_count df). intros g Hs.
    induction Hs as [|r tl Hs IH Hall]; simpl; [constructor|].
    destruct (cnt_alpha r <? obs)%Z; [|exact IH].
    constructor; [exact IH|]. rewrite Forall_forall in *.
    intros r' Hr'. apply filter_In in Hr'. apply Hall. tauto. }
  induction Hs as [|r tl Hs IH Hall]; simpl; constructor; [|exact IH].
  rewrite in_map_iff. intros [r' [E Hr']].
  rewrite Forall_forall in Hall. specialize (Hall r' Hr').
  unfold key_lt in Hall. lia.
Qed.

Lemma obs_counter_3_nil (df : DataFrame) :
  obs_counter df 3 = [] <-> forall i, entity df i -> (3 <= n_obs df i)%Z.
Proof.
  split.
  - intros Hnil i He.
    destruct (Z.lt_ge_cases (n_obs df i) 3) as [Hlt|Hge]; [|exact Hge].
    assert (Hin : In i (obs_counter df 3))
      by (apply In_obs_counter; split; assumption).
    rewrite Hnil in Hin. contradiction.
  - intros Hall. destruct (obs_counter df 3) as [|i l] eqn:E; [reflexivity|].
    assert (Hin : In i (obs_counter df 3)) by (rewrite E; now left).
    apply In_obs_counter in Hin. destruct Hin as [He Hlt].
    specialize (Hall i He). lia.
Qed.

End ObsCounter.

(** C4: for every frame and threshold, [obs_counter] returns, each once,
    exactly the ids of the entities with strictly fewer observations than
    the threshold; [obs_counter df 3] is empty if and only if every entity
    has at least 3 observations; an entity with exactly 2 observations is
    returned. *)
Theorem obs_counter_spec (df : DataFrame) (obs : Z) :
  (forall i, In i (core.obs_counter df obs)
             <-> entity df i /\ (n_obs df i < obs)%Z)
  /\ NoDup (core.obs_counter df obs)
  /\ (core.obs_counter df 3 = []
      <-> forall i, entity df i -> (3 <= n_obs df i)%Z)
  /\ (forall i, n_obs df i = 2%Z -> In i (core.obs_counter df 3)).
Proof.
  split; [|split; [|split]].
  - intros i. apply In_obs_counter.
  - apply NoDup_obs_counter.
  - apply obs_counter_3_nil.
  - intros i H2. apply In_obs_counter. split; [|lia].
    apply entity_n_obs. lia.
Qed.

(** * The interpolation layer *)

Section Interpolation.

Import interpolate.

Lemma Rlist_min_spec (l : list R) :
  l <> [] -> In (Rlist_min l) l /\ forall x, In x l -> Rlist_min l <= x.
Proof.
  destruct l as [|a tl]; [congruence|]. intros _. simpl.
  induction tl as [|b tl IH]; simpl.
  - split; [now left|]. intros x [<-|[]]. lra.
  - destruct IH as [Hin Hle].
    pose proof (Rmin_l b (fold_right Rmin a tl)) as Hl.
    pose proof (Rmin_r b (fold_right Rmin a tl)) as Hr.
    split.
    + destruct (Rle_dec b (fold_right Rmin a tl)) as [Hb|Hb].
      * rewrite Rmin_left by exact Hb. right; now left.
      * rewrite Rmin_right by lra.
        destruct Hin as [Hin|Hin]; [now left | right; now right].
    + intros x [Hx|[Hx|Hx]].
      * specialize (Hle x (or_introl Hx)). lra.
      * subst x. exact Hl.
      * specialize (Hle x (or_intror Hx)). lra.
Qed.

Lemma Rlist_max_spec (l : list R) :
  l <> [] -> In (Rlist_max l) l /\ forall x, In x l -> x <= Rlist_max l.
Proof.
  destruct l as [|a tl]; [congruence|]. intros _. simpl.
  induction tl as [|b tl IH]; simpl.
  - split; [now left|]. intros x [<-|[]]. lra.
  - destruct IH as [Hin Hle].
    pose proof (Rmax_l b (fold_right Rmax a tl)) as Hl.
    pose proof (Rmax_r b (fold_right Rmax a tl)) as Hr.
    split.
    + destruct (Rle_dec b (fold_right Rmax a tl)) as [Hb|Hb].
      * rewrite Rmax_right by exact Hb.
        destruct Hin as [Hin|Hin]; [now left | right; now right].
      * rewrite Rmax_left by lra. right; now left.
    + intros x [Hx|[Hx|Hx]].
      * specialize (Hle x (or_introl Hx)). lra.
      * subst x. exact Hl.
      * specialize (Hle x (or_intror Hx)). lra.
Qed.

(** *** The sort of the knots *)

Lemma In_insert_knot (p q : R * R) (l : list (R * R)) :
  In q (insert_knot p l) <-> q = p \/ In q l.
Proof.
  induction l as [|r tl IH]; simpl.
  - intuition.
  - destruct (Rle_dec (fst p) (fst r)); simpl; [intuition|].
    rewrite IH. intuition.
Qed.

Lemma In_sort_knots (q : R * R) (l : list (R * R)) :
  In q (sort_knots l) <-> In q l.
Proof.
  induction l as [|p tl IH]; simpl; [tauto|].
  rewrite In_insert_knot, IH. intuition.
Qed.

Lemma length_insert_knot (p : R * R) (l : list (R * R)) :
  length (insert_knot p l) = S (length l).
Proof.
  induction l as [|r tl IH]; simpl; [reflexivity|].
  destruct (Rle_dec (fst p) (fst r)); simpl; [reflexivity | now rewrite IH].
Qed.

Lemma length_sort_knots (l : list (R * R)) :
  length (sort_knots l) = length l.
Proof.
  induction l as [|p tl IH]; simpl; [reflexivity|].
  now rewrite length_insert_knot, IH.
Qed.

Lemma insert_knot_sorted (p : R * R) (l : list (R * R)) :
  StronglySorted knot_le l -> StronglySorted knot_le (insert_knot p l).
Proof.
  induction 1 as [|r tl Hs IH Hall]; simpl.
  - repeat constructor.
  - destruct (Rle_dec (fst p) (fst r)) as [Hle|Hgt].
    + constructor; [constructor; assumption|].
      constructor; [exact Hle|].
      rewrite Forall_forall in *. intros q Hq. specialize (Hall q Hq).
      unfold knot_le in *. lra.
    + constructor; [exact IH|].
      rewrite Forall_forall in *. intros q Hq.
      apply In_insert_knot in Hq. destruct Hq as [->|Hq].
      * unfold knot_le. lra.
      * apply Hall; exact Hq.
Qed.

Lemma sort_knots_sorted (l : list (R * R)) :
  StronglySorted knot_le (sort_knots l).
Proof.
  induction l as [|p tl IH]; simpl; [constructor|].
  apply insert_knot_sorted; exact IH.
Qed.

(** Knots that are already in order stay as they are. *)
Lemma sort_knots_id (l : list (R * R)) :
  StronglySorted knot_le l -> sort_knots l = l.
Proof.
  induction 1 as [|p tl Hs IH Hall]; simpl; [reflexivity|].
  rewrite IH. destruct tl as [|q tl]; simpl; [reflexivity|].
  inversion Hall as [|? ? Hpq _]; subst. unfold knot_le in Hpq.
  destruct (Rle_dec (fst p) (fst q)); [reflexivity | contradiction].
Qed.

(** *** The ends of a sorted list *)

Lemma sorted_hd_least (xs : list R) :
  StronglySorted Rle xs -> xs <> [] ->
  In (hd 0 xs) xs /\ forall x, In x xs -> hd 0 xs <= x.
Proof.
  intros Hs Hne. destruct xs as [|a tl]; [congruence|]. simpl.
  split; [now left|]. inversion Hs as [|? ? _ Hall]; subst.
  rewrite Forall_forall in Hall. intros x [<-|Hx]; [lra | auto].
Qed.

Lemma sorted_last_greatest (xs : list R) :
  StronglySorted Rle xs -> xs <> [] ->
  In (last xs 0) xs /\ forall x, In x xs -> x <= last xs 0.
Proof.
  induction 1 as [|a tl Hs IH Hall]; intros Hne; [congruence|].
  destruct tl as [|b tl].
  - simpl. split; [now left|]. intros x [<-|[]]. lra.
  - destruct IH as [Hin Hle]; [discriminate|].
    change (last (a :: b :: tl) 0) with (last (b :: tl) 0).
    split; [now right|].
    intros x [<-|Hx]; [|apply Hle; exact Hx].
    rewrite Forall_forall in Hall. apply Hall. exact Hin.
Qed.

Lemma map_fst_sorted (l : list (R * R)) :
  StronglySorted knot_le l -> StronglySorted Rle (map fst l).
Proof.
  induction 1 as [|p tl Hs IH Hall]; simpl; constructor; [exact IH|].
  rewrite Forall_forall in *. intros x Hx. apply in_map_iff in Hx.
  destruct Hx as [q [<- Hq]]. apply Hall; exact Hq.
Qed.

Lemma map_fst_combine (x y : list R) :
  length x = length y -> map fst (combine x y) = x.
Proof.
  revert y. induction x as [|a x IH]; intros [|b y] H; simpl in *;
    try discriminate; [reflexivity|]. f_equal. apply IH. lia.
Qed.

Lemma map_snd_combine (x y : list R) :
  length x = length y -> map snd (combine x y) = y.
Proof.
  revert y. induction x as [|a x IH]; intros [|b y] H; simpl in *;
    try discriminate; [reflexivity|]. f_equal. apply IH. lia.
Qed.

Lemma In_map_fst_sort_knots (x y : list R) (a : R) :
  length x = length y ->
  In a (map fst (sort_knots (combine x y))) <-> In a x.
Proof.
  intros Hlen. rewrite <- (map_fst_combine x y Hlen) at 2.
  rewrite !in_map_iff. split; intros [p [<- Hp]]; exists p;
    (split; [reflexivity|]); apply In_sort_knots; exact Hp.
Qed.

(** *** The two kernels of the linear kind *)

Lemma np_interp_at_first (x b yb : R) (xs ys : list R) :
  StronglySorted Rlt (b :: xs) -> length xs = length ys -> x <= b ->
  np_interp x (b :: xs) (yb :: ys) = yb.
Proof.
  intros Hs Hlen Hx. destruct xs as [|c xs], ys as [|yc ys];
    try discriminate; [reflexivity|].
  simpl. inversion Hs as [|? ? _ Hall]; subst.
  inversion Hall as [|? ? Hbc _]; subst.
  destruct (Rlt_dec x c); [|lra].
  destruct (Rle_dec x b); [reflexivity | lra].
Qed.

(** Beyond its second knot, [_call_linear] is that of the knots after the
    first. *)
Lemma call_linear_cons (a b c ya yb : R) (xs ys : list R) (x : R) :
  a < x -> b < x ->
  _call_linear (mkInterp (a :: b :: c :: xs) (ya :: yb :: ys)) x
  = _call_linear (mkInterp (b :: c :: xs) (yb :: ys)) x.
Proof.
  intros Ha Hb. unfold _call_linear. cbn [interp_x interp_y].
  assert (Hk : exists k, searchsorted (b :: c :: xs) x = S k).
  { simpl. destruct (Rlt_dec b x); [eauto | lra]. }
  destruct Hk as [k Hk].
  assert (Hk' : searchsorted (a :: b :: c :: xs) x = S (S k)).
  { change (searchsorted (a :: b :: c :: xs) x)
      with (if Rlt_dec a x then S (searchsorted (b :: c :: xs) x) else O).
    destruct (Rlt_dec a x); [now rewrite Hk | lra]. }
  rewrite Hk, Hk'. cbn [length]. unfold clip.
  replace (Nat.min (S (S (S (length xs))) - 1) (Nat.max 1 (S (S k))))
    with (S (Nat.min (S (S (length xs)) - 1) (Nat.max 1 (S k)))) by lia.
  destruct (Nat.min (S (S (length xs)) - 1) (Nat.max 1 (S k))) as [|m] eqn:Em;
    [lia|].
  replace (S (S m) - 1)%nat with (S m) by lia.
  replace (S m - 1)%nat with m by lia. reflexivity.
Qed.

Lemma last_cons_cons (a b : R) (l : list R) :
  last (a :: b :: l) 0 = last (b :: l) 0.
Proof. reflexivity. Qed.

(** On its domain, [_call_linear] has the values of [np.interp], for at
    least two knots in strictly ascending order. *)
Lemma call_linear_np_interp (xs ys : list R) (x : R) :
  StronglySorted Rlt xs -> length xs = length ys -> (2 <= length xs)%nat ->
  hd 0 xs <= x <= last xs 0 ->
  _call_linear (mkInterp xs ys) x = np_interp x xs ys.
Proof.
  revert ys. induction xs as [|a xs IH]; intros ys Hs Hlen H2 Hx;
    [simpl in H2; lia|].
  destruct xs as [|b xs]; [simpl in H2; lia|].
  destruct ys as [|ya [|yb ys]]; try discriminate.
  assert (Hab : a < b).
  { inversion Hs as [|? ? _ Hall]; subst. now inversion Hall. }
  assert (Hs' : StronglySorted Rlt (b :: xs)) by (inversion Hs; assumption).
  simpl hd in Hx. rewrite last_cons_cons in Hx.
  destruct (Rlt_dec b x) as [Hbx|Hbx].
  - (* beyond the second knot: both kernels go on with the tail *)
    destruct xs as [|c xs].
    { simpl in Hx. lra. }
    destruct ys as [|yc ys]; [discriminate|].
    assert (IH' : _call_linear (mkInterp (b :: c :: xs) (yb :: yc :: ys)) x
                  = np_interp x (b :: c :: xs) (yb :: yc :: ys)).
    { apply IH; [exact Hs' | simpl in *; lia | simpl; lia |].
      simpl hd. split; [lra | tauto]. }
    change (np_interp x (a :: b :: c :: xs) (ya :: yb :: yc :: ys))
      with (if Rlt_dec x b
            then if Rle_dec x a then ya
                 else (yb - ya) / (b - a) * (x - a) + ya
            else np_interp x (b :: c :: xs) (yb :: yc :: ys)).
    destruct (Rlt_dec x b); [lra|]. rewrite <- IH'.
    apply call_linear_cons; lra.
  - (* up to the second knot: the chord through the first two knots *)
    assert (Hv : _call_linear (mkInterp (a :: b :: xs) (ya :: yb :: ys)) x
                 = (yb - ya) / (b - a) * (x - a) + ya).
    { unfold _call_linear. cbn [interp_x interp_y searchsorted].
      destruct (Rlt_dec a x) as [Hax|Hax].
      - destruct (Rlt_dec b x); [lra|]. cbn [length]. unfold clip.
        replace (Nat.min (S (S (length xs)) - 1) (Nat.max 1 1)) with 1%nat
          by lia.
        reflexivity.
      - cbn [length]. unfold clip.
        replace (Nat.min (S (S (length xs)) - 1) (Nat.max 1 0)) with 1%nat
          by lia.
        reflexivity. }
    rewrite Hv.
    destruct (Rlt_dec x b) as [Hxb|Hxb].
    + simpl. destruct (Rlt_dec x b); [|lra].
      destruct (Rle_dec x a); [|reflexivity].
      replace (x - a) with 0 by lra. lra.
    + assert (E : x = b) by lra. subst x.
      assert (Hnp : np_interp b (a :: b :: xs) (ya :: yb :: ys)
                    = np_interp b (b :: xs) (yb :: ys)).
      { simpl. destruct (Rlt_dec b b); [lra | reflexivity]. }
      rewrite Hnp, np_interp_at_first;
        [field; lra | exact Hs' | simpl in Hlen; lia | lra].
Qed.

(** *** The interpolants of a table *)

Section Table.

Variable table : list Penttila2016Row.
Variable phi : Penttila2016Row -> R.
Hypothesis table_nonempty : table <> [].

Lemma table_interp_ok :
  table_interp phi table
  = Ok (mkInterp (map fst (sort_knots (knots_of phi table)))
                 (map snd (sort_knots (knots_of phi table)))).
Proof.
  unfold table_interp, interp1d, knots_of. rewrite !length_map, Nat.eqb_refl.
  simpl. destruct table; [congruence | reflexivity].
Qed.

Lemma table_interp_hd :
  hd 0 (map fst (sort_knots (knots_of phi table))) = alpha_min table.
Proof.
  assert (Hlen : length (map ref_alpha table) = length (map phi table))
    by now rewrite !length_map.
  assert (Hne : map ref_alpha table <> [])
    by (destruct table; [congruence | discriminate]).
  assert (Hne' : map fst (sort_knots (knots_of phi table)) <> []).
  { intros E. apply (f_equal (@length R)) in E.
    rewrite length_map, length_sort_knots in E. unfold knots_of in E.
    rewrite length_combine, !length_map in E.
    destruct table; [congruence | simpl in E; lia]. }
  destruct (sorted_hd_least _ (map_fst_sorted _ (sort_knots_sorted _)) Hne')
    as [Hin Hle].
  destruct (Rlist_min_spec _ Hne) as [Hin' Hle'].
  unfold alpha_min. apply Rle_antisym.
  - apply Hle. apply In_map_fst_sort_knots; assumption.
  - apply Hle'. apply (In_map_fst_sort_knots _ _ _ Hlen). exact Hin.
Qed.

Lemma table_interp_last :
  last (map fst (sort_knots (knots_of phi table))) 0 = alpha_max table.
Proof.
  assert (Hlen : length (map ref_alpha table) = length (map phi table))
    by now rewrite !length_map.
  assert (Hne : map ref_alpha table <> [])
    by (destruct table; [congruence | discriminate]).
  assert (Hne' : map fst (sort_knots (knots_of phi table)) <> []).
  { intros E. apply (f_equal (@length R)) in E.
    rewrite length_map, length_sort_knots in E. unfold knots_of in E.
    rewrite length_combine, !length_map in E.
    destruct table; [congruence | simpl in E; lia]. }
  destruct (sorted_last_greatest _ (map_fst_sorted _ (sort_knots_sorted _)) Hne')
    as [Hin Hle].
  destruct (Rlist_max_spec _ Hne) as [Hin' Hle'].
  unfold alpha_max. apply Rle_antisym.
  - apply Hle'. apply (In_map_fst_sort_knots _ _ _ Hlen). exact Hin.
  - apply Hle. apply In_map_fst_sort_knots; assumption.
Qed.

Lemma y_interp_in_domain (x : R) :
  in_domain table x -> y_interp phi table x = Ok (interp_value phi table x).
Proof.
  intros [Hlo Hhi]. unfold y_interp. rewrite table_interp_ok.
  unfold interp1d_call. simpl interp_x. simpl interp_y.
  rewrite table_interp_hd, table_interp_last.
  destruct (Rlt_dec x (alpha_min table)); [lra|].
  destruct (Rlt_dec (alpha_max table) x); [lra|]. reflexivity.
Qed.

Lemma y_interp_below (x : R) :
  x < alpha_min table ->
  y_interp phi table x
  = Raise (ValueError "A value in x_new is below the interpolation range.").
Proof.
  intros Hlo. unfold y_interp. rewrite table_interp_ok.
  unfold interp1d_call. simpl interp_x. rewrite table_interp_hd.
  destruct (Rlt_dec x (alpha_min table)); [reflexivity | lra].
Qed.

Lemma alpha_min_le_max : alpha_min table <= alpha_max table.
Proof.
  assert (Hne : map ref_alpha table <> [])
    by (destruct table; [congruence | discriminate]).
  destruct (Rlist_min_spec _ Hne) as [Hin _].
  destruct (Rlist_max_spec _ Hne) as [_ Hle]. apply Hle. exact Hin.
Qed.

Lemma y_interp_above (x : R) :
  alpha_max table < x ->
  y_interp phi table x
  = Raise (ValueError "A value in x_new is above the interpolation range.").
Proof.
  intros Hhi. unfold y_interp. rewrite table_interp_ok.
  unfold interp1d_call. simpl interp_x.
  rewrite table_interp_hd, table_interp_last.
  pose proof alpha_min_le_max.
  destruct (Rlt_dec x (alpha_min table)); [lra|].
  destruct (Rlt_dec (alpha_max table) x); [reflexivity | lra].
Qed.

End Table.

(** *** Tables in strictly ascending order of alpha *)

Lemma knots_of_sorted (phi : Penttila2016Row -> R)
  (table : list Penttila2016Row) :
  StronglySorted alpha_lt table -> StronglySorted knot_le (knots_of phi table).
Proof.
  unfold knots_of.
  induction 1 as [|r tl Hs IH Hall]; simpl; constructor; [exact IH|].
  rewrite Forall_forall in *. intros [a b] Hq.
  assert (Ha : In a (map ref_alpha tl))
    by (apply in_combine_l in Hq; exact Hq).
  apply in_map_iff in Ha. destruct Ha as [r' [<- Hr']].
  specialize (Hall r' Hr'). unfold alpha_lt in Hall. unfold knot_le. simpl. lra.
Qed.

Lemma interp_value_sorted (phi : Penttila2016Row -> R)
  (table : list Penttila2016Row) (x : R) :
  StronglySorted alpha_lt table ->
  interp_value phi table x
  = np_interp x (map ref_alpha table) (map phi table).
Proof.
  intros Hs. unfold interp_value.
  rewrite (sort_knots_id _ (knots_of_sorted phi table Hs)). unfold knots_of.
  rewrite map_fst_combine, map_snd_combine by now rewrite !length_map.
  reflexivity.
Qed.

Lemma map_alpha_sorted (table : list Penttila2016Row) :
  StronglySorted alpha_lt table -> StronglySorted Rlt (map ref_alpha table).
Proof.
  induction 1 as [|r tl Hs IH Hall]; simpl; constructor; [exact IH|].
  rewrite Forall_forall in *. intros x Hx. apply in_map_iff in Hx.
  destruct Hx as [q [<- Hq]]. apply Hall; exact Hq.
Qed.

(** Whichever kernel the interpolant of a table uses, its values on the
    domain are the same. *)
Lemma table_call_linear (phi : Penttila2016Row -> R)
  (table : list Penttila2016Row) (c : interp1d_obj) (x : R) :
  StronglySorted alpha_lt table -> (2 <= length table)%nat ->
  table_interp phi table = Ok c -> in_domain table x ->
  _call_linear c x = interp_value phi table x.
Proof.
  intros Hs H2 Hc [Hlo Hhi].
  assert (Hne : table <> []) by (destruct table; [simpl in H2; lia | discriminate]).
  rewrite (table_interp_ok table phi Hne) in Hc. injection Hc as <-.
  unfold interp_value.
  rewrite <- (table_interp_hd table phi Hne) in Hlo.
  rewrite <- (table_interp_last table phi Hne) in Hhi.
  revert Hlo Hhi.
  rewrite (sort_knots_id _ (knots_of_sorted phi table Hs)). unfold knots_of.
  rewrite map_fst_combine, map_snd_combine by now rewrite !length_map.
  intros Hlo Hhi. apply call_linear_np_interp.
  - apply map_alpha_sorted; exact Hs.
  - now rewrite !length_map.
  - now rewrite length_map.
  - split; assumption.
Qed.

Lemma sorted_app_lt (pre post : list Penttila2016Row)
  (p r : Penttila2016Row) :
  StronglySorted alpha_lt (p :: pre ++ r :: post) ->
  ref_alpha p < ref_alpha r.
Proof.
  intros Hs. inversion Hs as [|? ? _ Hall]; subst.
  rewrite Forall_forall in Hall. apply Hall.
  apply in_or_app. right. now left.
Qed.

Lemma sorted_neighbours (pre post : list Penttila2016Row)
  (r0 r1 : Penttila2016Row) :
  StronglySorted alpha_lt (pre ++ r0 :: r1 :: post) ->
  ref_alpha r0 < ref_alpha r1.
Proof.
  induction pre as [|p pre IH]; intros Hs.
  - apply (sorted_app_lt [] post). exact Hs.
  - apply IH. inversion Hs; assumption.
Qed.

(** Between two neighbouring knots [np.interp] is the chord through them. *)
Lemma np_interp_bracket (phi : Penttila2016Row -> R)
  (pre post : list Penttila2016Row) (r0 r1 : Penttila2016Row) (x : R) :
  StronglySorted alpha_lt (pre ++ r0 :: r1 :: post) ->
  ref_alpha r0 <= x < ref_alpha r1 ->
  np_interp x (map ref_alpha (pre ++ r0 :: r1 :: post))
              (map phi (pre ++ r0 :: r1 :: post))
  = (phi r1 - phi r0) / (ref_alpha r1 - ref_alpha r0) * (x - ref_alpha r0)
    + phi r0.
Proof.
  intros Hs Hx. induction pre as [|p pre IH].
  - simpl. destruct (Rlt_dec x (ref_alpha r1)); [|lra].
    destruct (Rle_dec x (ref_alpha r0)); [|reflexivity].
    replace (x - ref_alpha r0) with 0 by lra. lra.
  - assert (Hp : ref_alpha p < ref_alpha r0)
      by (eapply sorted_app_lt; exact Hs).
    assert (Hs' : StronglySorted alpha_lt (pre ++ r0 :: r1 :: post))
      by (inversion Hs; assumption).
    specialize (IH Hs').
    destruct pre as [|p' pre].
    + simpl in *. destruct (Rlt_dec x (ref_alpha r0)); [lra|]. exact IH.
    + assert (Hp' : ref_alpha p' < ref_alpha r0)
        by (eapply sorted_app_lt; exact Hs').
      change (np_interp x (map ref_alpha ((p :: p' :: pre) ++ r0 :: r1 :: post))
                          (map phi ((p :: p' :: pre) ++ r0 :: r1 :: post)))
        with (if Rlt_dec x (ref_alpha p')
              then if Rle_dec x (ref_alpha p) then phi p
                   else (phi p' - phi p) / (ref_alpha p' - ref_alpha p)
                        * (x - ref_alpha p) + phi p
              else np_interp x
                     (map ref_alpha ((p' :: pre) ++ r0 :: r1 :: post))
                     (map phi ((p' :: pre) ++ r0 :: r1 :: post))).
      destruct (Rlt_dec x (ref_alpha p')); [lra|]. exact IH.
Qed.

(** At and after the last knot [np.interp] is the last ordinate. *)
Lemma np_interp_last (phi : Penttila2016Row -> R)
  (pre : list Penttila2016Row) (r : Penttila2016Row) (x : R) :
  StronglySorted alpha_lt (pre ++ [r]) ->
  ref_alpha r <= x ->
  np_interp x (map ref_alpha (pre ++ [r])) (map phi (pre ++ [r])) = phi r.
Proof.
  intros Hs Hx. induction pre as [|p pre IH]; [reflexivity|].
  assert (Hs' : StronglySorted alpha_lt (pre ++ [r]))
    by (inversion Hs; assumption).
  specialize (IH Hs').
  destruct pre as [|p' pre].
  - simpl in *. destruct (Rlt_dec x (ref_alpha r)); [lra | reflexivity].
  - assert (Hp' : ref_alpha p' < ref_alpha r)
      by (eapply sorted_app_lt; exact Hs').
    change (np_interp x (map ref_alpha ((p :: p' :: pre) ++ [r]))
                        (map phi ((p :: p' :: pre) ++ [r])))
      with (if Rlt_dec x (ref_alpha p')
            then if Rle_dec x (ref_alpha p) then phi p
                 else (phi p' - phi p) / (ref_alpha p' - ref_alpha p)
                      * (x - ref_alpha p) + phi p
            else np_interp x (map ref_alpha ((p' :: pre) ++ [r]))
                             (map phi ((p' :: pre) ++ [r]))).
    destruct (Rlt_dec x (ref_alpha p')); [lra|]. exact IH.
Qed.

Lemma in_domain_knot (table : list Penttila2016Row) (r : Penttila2016Row) :
  In r table -> in_domain table (ref_alpha r).
Proof.
  intros Hin.
  assert (Hne : map ref_alpha table <> [])
    by (destruct table; [contradiction | discriminate]).
  assert (Ha : In (ref_alpha r) (map ref_alpha table))
    by (apply in_map; exact Hin).
  destruct (Rlist_min_spec _ Hne) as [_ Hle].
  destruct (Rlist_max_spec _ Hne) as [_ Hge].
  split; [apply Hle | apply Hge]; exact Ha.
Qed.

Lemma in_domain_between (table : list Penttila2016Row)
  (r0 r1 : Penttila2016Row) (x : R) :
  In r0 table -> In r1 table -> ref_alpha r0 <= x <= ref_alpha r1 ->
  in_domain table x.
Proof.
  intros H0 H1 Hx.
  destruct (in_domain_knot _ _ H0) as [Hlo _].
  destruct (in_domain_knot _ _ H1) as [_ Hhi].
  split; lra.
Qed.

(** The interpolant at a knot of a strictly ascending table. *)
Lemma y_interp_knot (phi : Penttila2016Row -> R)
  (table : list Penttila2016Row) (r : Penttila2016Row) :
  StronglySorted alpha_lt table -> In r table ->
  y_interp phi table (ref_alpha r) = Ok (phi r).
Proof.
  intros Hs Hin.
  assert (Hne : table <> []) by (destruct table; [contradiction | discriminate]).
  rewrite (y_interp_in_domain table phi Hne) by (apply in_domain_knot; exact Hin).
  f_equal. rewrite interp_value_sorted by exact Hs.
  destruct (in_split _ _ Hin) as [pre [post ->]].
  destruct post as [|r1 post].
  - apply np_interp_last; [exact Hs | lra].
  - rewrite np_interp_bracket; [unfold Rdiv; ring | exact Hs |].
    split; [lra|].
    eapply sorted_neighbours; exact Hs.
Qed.

(** The interpolant strictly between two neighbouring knots. *)
Lemma y_interp_between (phi : Penttila2016Row -> R)
  (pre post : list Penttila2016Row) (r0 r1 : Penttila2016Row) (x : R) :
  StronglySorted alpha_lt (pre ++ r0 :: r1 :: post) ->
  ref_alpha r0 < x < ref_alpha r1 ->
  y_interp phi (pre ++ r0 :: r1 :: post) x
  = Ok (phi r0 + (phi r1 - phi r0) * (x - ref_alpha r0)
                 / (ref_alpha r1 - ref_alpha r0)).
Proof.
  intros Hs Hx.
  assert (Hne : pre ++ r0 :: r1 :: post <> [])
    by (destruct pre; discriminate).
  rewrite (y_interp_in_domain _ phi Hne).
  - f_equal. rewrite interp_value_sorted by exact Hs.
    rewrite np_interp_bracket; [unfold Rdiv; ring | exact Hs | lra].
  - apply (in_domain_between _ r0 r1); [| | lra];
      apply in_or_app; right; [now left | right; now left].
Qed.

End Interpolation.

(** * A fit run *)

Section Run.

Import hg1g2_model.

Lemma setitem_app {A : Type} (pre post : list A) (y x : A) (idx : nat) :
  length pre = idx ->
  setitem (pre ++ y :: post) idx x = Ok (pre ++ x :: post).
Proof.
  revert idx. induction pre as [|p pre IH]; intros idx <-; simpl;
    [reflexivity|]. now rewrite IH.
Qed.

Lemma for_each_cons {A B : Type} (body : B -> A -> M B) (x : A)
  (tl : list A) (b : B) (w : world) :
  for_each body (x :: tl) b w
  = match body b x w with
    | (Ok b', w') => for_each body tl b' w'
    | (Raise e, w') => (Raise e, w')
    end.
Proof. reflexivity. Qed.

Lemma logged_nil (w : world) : logged w [] = w.
Proof. destruct w. unfold logged. simpl. now rewrite app_nil_r. Qed.

Lemma logged_logged (w : world) (c1 c2 : list curve_fit_call) :
  logged (logged w c1) c2 = logged w (c1 ++ c2).
Proof. unfold logged. simpl. now rewrite app_assoc. Qed.

Variable curve_fit : model_fn -> basis -> list R -> result (popt * pcov).
Variables y1 y2 y3 : R -> result R.

(** The inner loop. *)
Lemma for_each_append_basis (alphas : list R) (fi1 fi2 fi3 : list R)
  (w : world) :
  for_each (append_basis y1 y2 y3) alphas (fi1, fi2, fi3) w
  = (match basis_of y1 y2 y3 alphas with
     | Ok (g1, g2, g3) => Ok (fi1 ++ g1, fi2 ++ g2, fi3 ++ g3)
     | Raise e => Raise e
     end, w).
Proof.
  revert fi1 fi2 fi3. induction alphas as [|x tl IH]; intros fi1 fi2 fi3.
  - simpl. unfold ret. now rewrite !app_nil_r.
  - simpl. unfold bind at 1. unfold append_basis, bind, lift, ret.
    destruct (y1 x) as [p1|e]; [|reflexivity].
    destruct (y2 x) as [p2|e]; [|reflexivity].
    destruct (y3 x) as [p3|e]; [|reflexivity].
    rewrite IH. destruct (basis_of y1 y2 y3 tl) as [[[g1 g2] g3]|e];
      [|reflexivity].
    now rewrite <- !app_assoc.
Qed.

(** One pass of the outer loop writes its row behind the rows written so
    far. *)
Lemma fit_entity_run (done : list FitResult) (rest : Columns) (n : nat)
  (id : Z) (w : world) :
  cols_length (S n) rest ->
  exists rest', cols_length n rest' /\
  fit_entity curve_fit y1 y2 y3 (cols_app done rest) (length done, id) w
  = match entity_fit curve_fit y1 y2 y3 (caller_df w) id with
    | (Ok row, calls) => (Ok (cols_app (done ++ [row]) rest'), logged w calls)
    | (Raise e, calls) => (Raise e, logged w calls)
    end.
Proof.
  intros (H0 & H1 & H2 & H3 & H4 & H5 & H6 & H7).
  destruct rest as [r0 r1 r2 r3 r4 r5 r6 r7]. simpl in *.
  destruct r0 as [|j0 r0]; [discriminate|].
  destruct r1 as [|j1 r1]; [discriminate|].
  destruct r2 as [|j2 r2]; [discriminate|].
  destruct r3 as [|j3 r3]; [discriminate|].
  destruct r4 as [|j4 r4]; [discriminate|].
  destruct r5 as [|j5 r5]; [discriminate|].
  destruct r6 as [|j6 r6]; [discriminate|].
  destruct r7 as [|j7 r7]; [discriminate|].
  exists (mkColumns r0 r1 r2 r3 r4 r5 r6 r7).
  split; [unfold cols_length; simpl in *; repeat split; lia|].
  unfold fit_entity, entity_fit. unfold bind at 1. unfold get_df.
  unfold bind at 1. rewrite for_each_append_basis.
  destruct (basis_of y1 y2 y3 (map obs_alpha (select_id (caller_df w) id)))
    as [[[fi1 fi2] fi3]|e]; [|now rewrite logged_nil].
  simpl app. unfold bind at 1. unfold call_curve_fit, logged.
  change (fun x : R => Rpower 10 (-0.4 * x)) with flux.
  destruct (curve_fit _HG1G2_model (fi1, fi2, fi3)
              (map flux (map obs_v (select_id (caller_df w) id))))
    as [[[[a b] c] [[[[c00 c01] c02] [[c10 c11] c12]] [[c20 c21] c22]]]|e];
    [|reflexivity].
  unfold cols_app. cbv beta iota delta [np_diag id_column H_1_2_column
    error_H_1_2_column G_1_column error_G_1_column G_2_column
    error_G_2_column R_column].
  unfold bind, lift, ret.
  rewrite !setitem_app by (rewrite length_map; reflexivity).
  unfold entity_row, np_diag. cbv beta iota zeta.
  cbv beta iota delta [fr_id fr_H12 fr_error_H12 fr_G1 fr_error_G1 fr_G2
    fr_error_G2 fr_R].
  rewrite !map_app. simpl map. rewrite <- !app_assoc. reflexivity.
Qed.

(** The outer loop. *)
Lemma for_each_fit_entity (ids : list Z) (done : list FitResult)
  (rest : Columns) (w : world) :
  cols_length (length ids) rest ->
  exists rest', cols_length 0 rest' /\
  for_each (fit_entity curve_fit y1 y2 y3)
           (combine (seq (length done) (length ids)) ids)
           (cols_app done rest) w
  = match fit_all curve_fit y1 y2 y3 (caller_df w) ids with
    | (Ok rows, calls) => (Ok (cols_app (done ++ rows) rest'), logged w calls)
    | (Raise e, calls) => (Raise e, logged w calls)
    end.
Proof.
  revert done rest w. induction ids as [|id tl IH]; intros done rest w Hlen.
  - exists rest. split; [exact Hlen|]. simpl. unfold ret.
    now rewrite app_nil_r, logged_nil.
  - simpl length in *. simpl seq. simpl combine.
    destruct (fit_entity_run done rest (length tl) id w Hlen)
      as [rest1 [Hlen1 Hrun]].
    rewrite for_each_cons, Hrun. simpl fit_all.
    destruct (entity_fit curve_fit y1 y2 y3 (caller_df w) id)
      as [[row|e] calls].
    + destruct (IH (done ++ [row]) rest1 (logged w calls) Hlen1)
        as [rest2 [Hlen2 Hloop]].
      exists rest2. split; [exact Hlen2|].
      rewrite length_app, Nat.add_comm in Hloop. simpl in Hloop.
      rewrite Hloop.
      destruct (fit_all curve_fit y1 y2 y3 (caller_df w) tl) as [[rows|e] calls'];
        rewrite logged_logged; [|reflexivity].
      now rewrite <- app_assoc.
    + exists (mkColumns [] [] [] [] [] [] [] []).
      split; [unfold cols_length; simpl; tauto | reflexivity].
Qed.

End Run.

Section RunExt.

Variable curve_fit : model_fn -> basis -> list R -> result (popt * pcov).
Variables y1 y2 y3 z1 z2 z3 : R -> result R.
Hypothesis ext1 : forall x, y1 x = z1 x.
Hypothesis ext2 : forall x, y2 x = z2 x.
Hypothesis ext3 : forall x, y3 x = z3 x.

Lemma basis_of_ext (alphas : list R) :
  basis_of y1 y2 y3 alphas = basis_of z1 z2 z3 alphas.
Proof.
  induction alphas as [|x tl IH]; simpl; [reflexivity|].
  now rewrite ext1, ext2, ext3, IH.
Qed.

Lemma fit_all_ext (df : DataFrame) (ids : list Z) :
  fit_all curve_fit y1 y2 y3 df ids = fit_all curve_fit z1 z2 z3 df ids.
Proof.
  induction ids as [|id tl IH]; simpl; [reflexivity|].
  unfold entity_fit. now rewrite basis_of_ext, IH.
Qed.

End RunExt.

Section RunWhole.

Import hg1g2_model.

Variable table : list Penttila2016Row.
Variable curve_fit : model_fn -> basis -> list R -> result (popt * pcov).
Variable junk_int : nat -> Z.
Variable junk_float : nat -> R.

Lemma length_np_empty {A : Type} (junk : nat -> A) (size : nat) :
  length (np_empty junk size) = size.
Proof. unfold np_empty. now rewrite length_map, length_seq. Qed.

Lemma cols_app_done (rows : list FitResult) (rest : Columns) :
  cols_length 0 rest ->
  cols_app rows rest
  = mkColumns (map fr_id rows) (map fr_H12 rows) (map fr_error_H12 rows)
              (map fr_G1 rows) (map fr_error_G1 rows) (map fr_G2 rows)
              (map fr_error_G2 rows) (map fr_R rows).
Proof.
  intros (H0 & H1 & H2 & H3 & H4 & H5 & H6 & H7).
  destruct rest as [r0 r1 r2 r3 r4 r5 r6 r7]. simpl in *.
  apply length_zero_iff_nil in H0, H1, H2, H3, H4, H5, H6, H7. subst.
  unfold cols_app. simpl. now rewrite !app_nil_r.
Qed.

(** [HG1G2_fit] is the function [run_summary]. *)
Lemma HG1G2_fit_run (w : world) :
  HG1G2_fit table curve_fit junk_int junk_float w
  = run_summary table curve_fit w.
Proof.
  unfold HG1G2_fit, run_summary. unfold bind at 1. unfold get_df.
  fold (few_observations_msg (core.obs_counter (caller_df w) 3)).
  destruct (0 <? length (core.obs_counter (caller_df w) 3))%nat;
    [reflexivity|].
  unfold bind at 1. unfold drop_duplicates.
  unfold bind at 1. unfold lift at 1. fold (table_interp ref_phi1 table).
  destruct (table_interp ref_phi1 table) as [c1|e] eqn:E1; [|reflexivity].
  unfold bind at 1. unfold lift at 1. fold (table_interp ref_phi2 table).
  destruct (table_interp ref_phi2 table) as [c2|e] eqn:E2; [|reflexivity].
  unfold bind at 1. unfold lift at 1. fold (table_interp ref_phi3 table).
  destruct (table_interp ref_phi3 table) as [c3|e] eqn:E3; [|reflexivity].
  unfold bind at 1. unfold enumerate. fold (unique_ids (caller_df w)).
  set (size := length (keep_first [] (caller_df w))).
  set (rest := mkColumns (np_empty junk_int size) (np_empty junk_float size)
                 (np_empty junk_float size) (np_empty junk_float size)
                 (np_empty junk_float size) (np_empty junk_float size)
                 (np_empty junk_float size) (np_empty junk_float size)).
  assert (Hlen : cols_length (length (unique_ids (caller_df w))) rest).
  { unfold cols_length, rest, unique_ids. simpl.
    rewrite !length_np_empty, length_map. fold size. tauto. }
  destruct (for_each_fit_entity curve_fit
              (interpolate.interp1d_call c1) (interpolate.interp1d_call c2)
              (interpolate.interp1d_call c3)
              (unique_ids (caller_df w)) [] rest w Hlen)
    as [rest' [Hlen' Hloop]].
  change (cols_app [] rest) with rest in Hloop. simpl length in Hloop.
  rewrite Hloop.
  rewrite (fit_all_ext curve_fit _ _ _ (y_interp ref_phi1 table)
             (y_interp ref_phi2 table) (y_interp ref_phi3 table)).
  - destruct (fit_all curve_fit (y_interp ref_phi1 table)
                (y_interp ref_phi2 table) (y_interp ref_phi3 table)
                (caller_df w) (unique_ids (caller_df w)))
      as [[rows|e] calls]; [|reflexivity].
    simpl app. rewrite (cols_app_done rows rest' Hlen').
    unfold bind, lift, ret. reflexivity.
  - intros x. unfold y_interp. now rewrite E1.
  - intros x. unfold y_interp. now rewrite E2.
  - intros x. unfold y_interp. now rewrite E3.
Qed.

End RunWhole.

(** * What a run fits *)

Section Fitted.

Import hg1g2_model.

Variable table : list Penttila2016Row.
Variable curve_fit : model_fn -> basis -> list R -> result (popt * pcov).
Hypothesis table_nonempty : table <> [].

Lemma y_interp_cases (phi : Penttila2016Row -> R) (x : R) :
  (in_domain table x /\ y_interp phi table x = Ok (interp_value phi table x))
  \/ (~ in_domain table x
      /\ exists msg, out_of_range msg
                     /\ y_interp phi table x = Raise (ValueError msg)).
Proof.
  destruct (Rlt_dec x (alpha_min table)) as [Hlo|Hlo].
  - right. split; [unfold in_domain; lra|]. eexists. split; [left; reflexivity|].
    apply y_interp_below; assumption.
  - destruct (Rlt_dec (alpha_max table) x) as [Hhi|Hhi].
    + right. split; [unfold in_domain; lra|].
      eexists. split; [right; reflexivity|].
      apply y_interp_above; assumption.
    + left. assert (Hd : in_domain table x) by (unfold in_domain; lra).
      split; [exact Hd|]. apply y_interp_in_domain; assumption.
Qed.

Lemma y_interp_Ok_inv (phi : Penttila2016Row -> R) (x v : R) :
  y_interp phi table x = Ok v ->
  in_domain table x /\ v = interp_value phi table x.
Proof.
  intros H. destruct (y_interp_cases phi x) as [[Hd E]|[_ [msg [_ E]]]];
    rewrite E in H; [|discriminate].
  injection H as <-. auto.
Qed.

(** The inner loop on phase angles of the domain. *)
Lemma basis_of_in_domain (alphas : list R) :
  Forall (in_domain table) alphas ->
  basis_of (y_interp ref_phi1 table) (y_interp ref_phi2 table)
           (y_interp ref_phi3 table) alphas
  = Ok (map (interp_value ref_phi1 table) alphas,
        map (interp_value ref_phi2 table) alphas,
        map (interp_value ref_phi3 table) alphas).
Proof.
  induction 1 as [|x tl Hx Htl IH]; simpl; [reflexivity|].
  rewrite !y_interp_in_domain by assumption. now rewrite IH.
Qed.

(** The inner loop meets a phase angle outside the domain. *)
Lemma basis_of_out_of_domain (alphas : list R) :
  ~ Forall (in_domain table) alphas ->
  exists msg, out_of_range msg /\
    basis_of (y_interp ref_phi1 table) (y_interp ref_phi2 table)
             (y_interp ref_phi3 table) alphas
    = Raise (ValueError msg).
Proof.
  induction alphas as [|x tl IH]; intros Hn.
  - exfalso. apply Hn. constructor.
  - simpl.
    destruct (y_interp_cases ref_phi1 x) as [[Hd E]|[_ [msg [Hm E]]]].
    + rewrite E, !y_interp_in_domain by assumption.
      destruct IH as [msg [Hm E']].
      * intros Hall. apply Hn. constructor; assumption.
      * exists msg. split; [exact Hm|]. now rewrite E'.
    + exists msg. split; [exact Hm|]. now rewrite E.
Qed.

Lemma basis_of_Ok_inv (alphas : list R) (b : basis) :
  basis_of (y_interp ref_phi1 table) (y_interp ref_phi2 table)
           (y_interp ref_phi3 table) alphas = Ok b ->
  Forall (in_domain table) alphas
  /\ b = (map (interp_value ref_phi1 table) alphas,
          map (interp_value ref_phi2 table) alphas,
          map (interp_value ref_phi3 table) alphas).
Proof.
  revert b. induction alphas as [|x tl IH]; intros b H; simpl in H.
  - injection H as <-. split; [constructor | reflexivity].
  - destruct (y_interp ref_phi1 table x) as [p1|e] eqn:E1; [|discriminate].
    destruct (y_interp ref_phi2 table x) as [p2|e] eqn:E2; [|discriminate].
    destruct (y_interp ref_phi3 table x) as [p3|e] eqn:E3; [|discriminate].
    destruct (basis_of _ _ _ tl) as [[[g1 g2] g3]|e]; [|discriminate].
    injection H as <-.
    destruct (IH _ eq_refl) as [Hall Hb]. injection Hb as -> -> ->.
    apply y_interp_Ok_inv in E1, E2, E3.
    destruct E1 as [Hd ->], E2 as [_ ->], E3 as [_ ->].
    split; [constructor; assumption | reflexivity].
Qed.

(** One pass of the outer loop, for an entity in the domain. *)
Lemma entity_fit_in_domain (df : DataFrame) (i : Z) :
  Forall (in_domain table) (entity_alphas df i) ->
  entity_fit curve_fit (y_interp ref_phi1 table) (y_interp ref_phi2 table)
             (y_interp ref_phi3 table) df i
  = match curve_fit _HG1G2_model (entity_basis table df i)
                    (entity_target df i) with
    | Ok (op, cov) => (Ok (fitted_row table df i op cov), [entity_call table df i])
    | Raise e => (Raise e, [entity_call table df i])
    end.
Proof.
  intros Hd. unfold entity_fit.
  fold (entity_alphas df i). rewrite (basis_of_in_domain _ Hd).
  fold (entity_target df i). fold (entity_basis table df i).
  unfold entity_basis at 1.
  destruct (curve_fit _ _ _) as [[op cov]|e]; reflexivity.
Qed.

Lemma entity_fit_out_of_domain (df : DataFrame) (i : Z) :
  ~ Forall (in_domain table) (entity_alphas df i) ->
  exists msg, out_of_range msg /\
    entity_fit curve_fit (y_interp ref_phi1 table) (y_interp ref_phi2 table)
               (y_interp ref_phi3 table) df i
    = (Raise (ValueError msg), []).
Proof.
  intros Hn. destruct (basis_of_out_of_domain _ Hn) as [msg [Hm E]].
  exists msg. split; [exact Hm|]. unfold entity_fit.
  fold (entity_alphas df i). now rewrite E.
Qed.

Lemma in_domain_dec (x : R) : {in_domain table x} + {~ in_domain table x}.
Proof.
  unfold in_domain.
  destruct (Rle_dec (alpha_min table) x); [|right; tauto].
  destruct (Rle_dec x (alpha_max table)); [left; tauto | right; tauto].
Qed.

(** The rows of a loop that ends without exception. *)
Lemma fit_all_Ok_inv (df : DataFrame) (ids : list Z)
  (rows : list FitResult) (calls : list curve_fit_call) :
  fit_all curve_fit (y_interp ref_phi1 table) (y_interp ref_phi2 table)
          (y_interp ref_phi3 table) df ids = (Ok rows, calls) ->
  Forall2 (fitted table curve_fit df) ids rows
  /\ calls = map (entity_call table df) ids.
Proof.
  revert rows calls. induction ids as [|i tl IH]; intros rows calls H.
  - simpl in H. injection H as <- <-. split; [constructor | reflexivity].
  - simpl in H.
    destruct (Forall_dec _ in_domain_dec (entity_alphas df i)) as [Hd|Hn].
    + rewrite (entity_fit_in_domain _ _ Hd) in H.
      destruct (curve_fit _ _ _) as [[op cov]|e] eqn:E; [|discriminate].
      destruct (fit_all _ _ _ _ df tl) as [[rows'|e] calls'];
        [|discriminate].
      injection H as <- <-. destruct (IH _ _ eq_refl) as [Hf ->].
      split; [|reflexivity]. constructor; [|exact Hf].
      split; [exact Hd|]. exists op, cov. auto.
    + destruct (entity_fit_out_of_domain df i Hn) as [msg [_ E]].
      rewrite E in H. discriminate.
Qed.

(** A loop whose entities are in the domain and are solved ends without
    exception. *)
Lemma fit_all_Ok (df : DataFrame) (ids : list Z) :
  (forall i, In i ids -> Forall (in_domain table) (entity_alphas df i)) ->
  (forall i, In i ids ->
     exists sol, curve_fit _HG1G2_model (entity_basis table df i)
                           (entity_target df i) = Ok sol) ->
  exists rows calls,
    fit_all curve_fit (y_interp ref_phi1 table) (y_interp ref_phi2 table)
            (y_interp ref_phi3 table) df ids = (Ok rows, calls).
Proof.
  induction ids as [|i tl IH]; intros Hd Hs.
  - exists [], []. reflexivity.
  - simpl. rewrite entity_fit_in_domain by (apply Hd; now left).
    destruct (Hs i (or_introl eq_refl)) as [[op cov] E]. rewrite E.
    destruct IH as [rows [calls E']].
    + intros j Hj. apply Hd. now right.
    + intros j Hj. apply Hs. now right.
    + rewrite E'. eexists. eexists. reflexivity.
Qed.

(** A loop with an entity that has a phase angle outside the domain ends
    with an exception. *)
Lemma fit_all_out_of_domain (df : DataFrame) (ids : list Z) (i : Z) :
  In i ids -> ~ Forall (in_domain table) (entity_alphas df i) ->
  exists e calls,
    fit_all curve_fit (y_interp ref_phi1 table) (y_interp ref_phi2 table)
            (y_interp ref_phi3 table) df ids = (Raise e, calls).
Proof.
  intros Hin Hn.
  destruct (fit_all curve_fit (y_interp ref_phi1 table)
              (y_interp ref_phi2 table) (y_interp ref_phi3 table) df ids)
    as [[rows|e] calls] eqn:E; [|eauto].
  exfalso. apply fit_all_Ok_inv in E. destruct E as [Hf _].
  clear - Hf Hin Hn. induction Hf as [|j row tl rows Hj _ IH];
    [contradiction|].
  destruct Hin as [->|Hin]; [|auto]. destruct Hj as [Hd _]. contradiction.
Qed.

Lemma Forall2_fitted_ids (df : DataFrame) (ids : list Z)
  (rows : list FitResult) :
  Forall2 (fitted table curve_fit df) ids rows -> map fr_id rows = ids.
Proof.
  induction 1 as [|i row tl rows Hi _ IH]; simpl; [reflexivity|].
  f_equal; [|exact IH]. destruct Hi as [_ [op [cov [_ ->]]]].
  destruct op as [[a b] c].
  destruct cov as [[[[c00 c01] c02] [[c10 c11] c12]] [[c20 c21] c22]].
  reflexivity.
Qed.

End Fitted.

(** * The order of the rows *)

Section FirstOccurrence.

Lemma existsb_eqb_In (i : Z) (seen : list Z) :
  existsb (Z.eqb i) seen = true <-> In i seen.
Proof.
  rewrite existsb_exists. split.
  - intros [x [Hx E]]. apply Z.eqb_eq in E. now subst.
  - intros H. exists i. split; [exact H | apply Z.eqb_refl].
Qed.

Lemma In_keep_first (seen : list Z) (df : DataFrame) (i : Z) :
  In i (map obs_id (keep_first seen df))
  <-> In i (map obs_id df) /\ ~ In i seen.
Proof.
  revert seen. induction df as [|o tl IH]; intros seen; simpl; [tauto|].
  destruct (existsb (Z.eqb (obs_id o)) seen) eqn:E.
  - apply existsb_eqb_In in E. rewrite IH. split.
    + tauto.
    + intros [[<-|H] Hn]; [contradiction | tauto].
  - assert (Hn : ~ In (obs_id o) seen).
    { intros H. apply existsb_eqb_In in H. congruence. }
    simpl. rewrite IH. simpl. split.
    + intros [<-|[H1 H2]]; tauto.
    + intros [[<-|H] Hs]; [now left|].
      destruct (Z.eq_dec (obs_id o) i) as [->|Hne]; [now left | right].
      tauto.
Qed.

Lemma NoDup_keep_first (seen : list Z) (df : DataFrame) :
  NoDup (map obs_id (keep_first seen df)).
Proof.
  revert seen. induction df as [|o tl IH]; intros seen; simpl;
    [constructor|].
  destruct (existsb (Z.eqb (obs_id o)) seen); [apply IH|].
  simpl. constructor; [|apply IH].
  rewrite In_keep_first. simpl. tauto.
Qed.

Lemma StronglySorted_map_S (l : list nat) :
  StronglySorted lt l -> StronglySorted lt (map S l).
Proof.
  induction 1 as [|x tl Hs IH Hall]; simpl; constructor; [exact IH|].
  rewrite Forall_forall in *. intros y Hy. apply in_map_iff in Hy.
  destruct Hy as [z [<- Hz]]. specialize (Hall z Hz). lia.
Qed.

Lemma keep_first_sorted (seen : list Z) (df : DataFrame) :
  StronglySorted lt
    (map (fun i => first_index i (map obs_id df))
         (map obs_id (keep_first seen df))).
Proof.
  revert seen. induction df as [|o tl IH]; intros seen; simpl;
    [constructor|].
  destruct (existsb (Z.eqb (obs_id o)) seen) eqn:E.
  - apply existsb_eqb_In in E.
    rewrite (map_ext_in _ (fun i => S (first_index i (map obs_id tl)))).
    + rewrite <- (map_map (fun i => first_index i (map obs_id tl)) S).
      apply StronglySorted_map_S, IH.
    + intros i Hi. apply In_keep_first in Hi. destruct Hi as [_ Hn].
      destruct (Z.eqb_spec (obs_id o) i); [subst; contradiction | reflexivity].
  - simpl. rewrite Z.eqb_refl.
    rewrite (map_ext_in _ (fun i => S (first_index i (map obs_id tl)))).
    + rewrite <- (map_map (fun i => first_index i (map obs_id tl)) S).
      constructor; [apply StronglySorted_map_S, IH|].
      rewrite Forall_forall. intros n Hn. apply in_map_iff in Hn.
      destruct Hn as [m [<- _]]. lia.
    + intros i Hi. apply In_keep_first in Hi. destruct Hi as [_ Hn].
      simpl in Hn.
      destruct (Z.eqb_spec (obs_id o) i); [tauto | reflexivity].
Qed.

(** [noob.id] lists the entities once each, in first-occurrence order. *)
Lemma unique_ids_order (df : DataFrame) :
  first_occurrence_order df (unique_ids df).
Proof.
  unfold first_occurrence_order, unique_ids. split; [|split].
  - apply NoDup_keep_first.
  - intros i. rewrite In_keep_first. unfold entity. simpl. tauto.
  - apply keep_first_sorted.
Qed.

(** First-occurrence order leaves one list only. *)
Lemma sorted_by_key_unique (f : Z -> nat) (l1 l2 : list Z) :
  NoDup l1 -> NoDup l2 -> (forall i, In i l1 <-> In i l2) ->
  StronglySorted lt (map f l1) -> StronglySorted lt (map f l2) ->
  l1 = l2.
Proof.
  revert l2. induction l1 as [|a t1 IH]; intros l2 N1 N2 Hin S1 S2.
  - destruct l2 as [|b t2]; [reflexivity|].
    exfalso. apply (Hin b). now left.
  - destruct l2 as [|b t2].
    { exfalso. apply (Hin a). now left. }
    inversion N1 as [|? ? Ha N1']; subst.
    inversion N2 as [|? ? Hb N2']; subst.
    simpl in S1, S2.
    inversion S1 as [|? ? S1' F1]; subst.
    inversion S2 as [|? ? S2' F2]; subst.
    rewrite Forall_forall in F1, F2.
    assert (E : a = b).
    { destruct (Z.eq_dec a b) as [E|NE]; [exact E | exfalso].
      assert (Ha2 : In a t2).
      { destruct (proj1 (Hin a) (or_introl eq_refl)) as [Hba|H];
          [congruence | exact H]. }
      assert (Hb1 : In b t1).
      { destruct (proj2 (Hin b) (or_introl eq_refl)) as [Hab|H];
          [congruence | exact H]. }
      pose proof (F1 (f b) (in_map f _ _ Hb1)).
      pose proof (F2 (f a) (in_map f _ _ Ha2)). lia. }
    subst b. f_equal. apply IH; try assumption.
    intros i. split; intros Hi.
    + destruct (proj1 (Hin i) (or_intror Hi)) as [<-|H];
        [contradiction | exact H].
    + destruct (proj2 (Hin i) (or_intror Hi)) as [<-|H];
        [contradiction | exact H].
Qed.

Lemma first_occurrence_order_unique (df : DataFrame) (l : list Z) :
  first_occurrence_order df l -> l = unique_ids df.
Proof.
  intros (N & Hin & Hs). destruct (unique_ids_order df) as (N' & Hin' & Hs').
  apply (sorted_by_key_unique (fun i => first_index i (map obs_id df)));
    try assumption.
  intros i. now rewrite Hin, Hin'.
Qed.

End FirstOccurrence.

(** * Runs that return and runs that raise *)

Section RunCases.

Import hg1g2_model.

Variable table : list Penttila2016Row.
Variable curve_fit : model_fn -> basis -> list R -> result (popt * pcov).
Variable junk_int : nat -> Z.
Variable junk_float : nat -> R.

Lemma table_interp_Ok_nonempty (phi : Penttila2016Row -> R)
  (c : interpolate.interp1d_obj) :
  table_interp phi table = Ok c -> table <> [].
Proof.
  intros H ->. unfold table_interp, interpolate.interp1d in H.
  simpl in H. discriminate.
Qed.

Lemma obs_counter_gate (df : DataFrame) :
  (0 <? length (core.obs_counter df 3))%nat = false
  <-> core.obs_counter df 3 = [].
Proof.
  destruct (core.obs_counter df 3); simpl; split; intros H;
    try reflexivity; discriminate.
Qed.

(** A run that returns. *)
Lemma HG1G2_fit_Ok_inv (w w' : world) (res : PyedraFitDataFrame) :
  HG1G2_fit table curve_fit junk_int junk_float w = (Ok res, w') ->
  table <> []
  /\ core.obs_counter (caller_df w) 3 = []
  /\ exists rows,
       model_df res = frame_of rows
       /\ plot res = mkPlot (frame_of rows)
       /\ fitted_rows table curve_fit (caller_df w) rows
       /\ w' = logged w (map (entity_call table (caller_df w))
                             (unique_ids (caller_df w))).
Proof.
  rewrite HG1G2_fit_run. unfold run_summary.
  destruct (0 <? length (core.obs_counter (caller_df w) 3))%nat eqn:G;
    [discriminate|].
  apply obs_counter_gate in G.
  destruct (table_interp ref_phi1 table) as [c1|e] eqn:E1; [|discriminate].
  destruct (table_interp ref_phi2 table) as [c2|e] eqn:E2; [|discriminate].
  destruct (table_interp ref_phi3 table) as [c3|e] eqn:E3; [|discriminate].
  pose proof (table_interp_Ok_nonempty _ _ E1) as Hne.
  destruct (fit_all _ _ _ _ _ _) as [[rows|e] calls] eqn:E; [|discriminate].
  intros H. injection H as <- <-.
  apply (fit_all_Ok_inv table curve_fit Hne) in E. destruct E as [Hf ->].
  split; [exact Hne|]. split; [exact G|].
  exists rows. simpl. auto.
Qed.

(** A run on a frame that passes the gate, whose phase angles are in the
    domain and whose entities are solved, returns. *)
Lemma HG1G2_fit_Ok (w : world) :
  table <> [] ->
  core.obs_counter (caller_df w) 3 = [] ->
  (forall o, In o (caller_df w) -> in_domain table (obs_alpha o)) ->
  (forall i, entity (caller_df w) i ->
     exists sol, curve_fit _HG1G2_model (entity_basis table (caller_df w) i)
                           (entity_target (caller_df w) i) = Ok sol) ->
  exists res w',
    HG1G2_fit table curve_fit junk_int junk_float w = (Ok res, w').
Proof.
  intros Hne G Hd Hs. rewrite HG1G2_fit_run. unfold run_summary.
  apply obs_counter_gate in G. rewrite G.
  rewrite !table_interp_ok by exact Hne.
  destruct (fit_all_Ok table curve_fit Hne (caller_df w)
              (unique_ids (caller_df w))) as [rows [calls E]].
  - intros i _. unfold entity_alphas, select_id.
    rewrite Forall_forall. intros x Hx. apply in_map_iff in Hx.
    destruct Hx as [o [<- Ho]]. apply filter_In in Ho. apply Hd. tauto.
  - intros i Hi. apply Hs. apply (unique_ids_order (caller_df w)). exact Hi.
  - rewrite E. eexists. eexists. reflexivity.
Qed.

(** The frame of the caller is the same after any run. *)
Lemma HG1G2_fit_frame (w : world) :
  caller_df (snd (HG1G2_fit table curve_fit junk_int junk_float w))
  = caller_df w.
Proof.
  rewrite HG1G2_fit_run. unfold run_summary.
  destruct (0 <? length (core.obs_counter (caller_df w) 3))%nat;
    [reflexivity|].
  destruct (table_interp ref_phi1 table); [|reflexivity].
  destruct (table_interp ref_phi2 table); [|reflexivity].
  destruct (table_interp ref_phi3 table); [|reflexivity].
  destruct (fit_all _ _ _ _ _ _) as [[rows|e] calls]; reflexivity.
Qed.

(** A run on a frame that does not pass the gate. *)
Lemma HG1G2_fit_gate (w : world) :
  core.obs_counter (caller_df w) 3 <> [] ->
  HG1G2_fit table curve_fit junk_int junk_float w
  = (Raise (ValueError
       (few_observations_msg (core.obs_counter (caller_df w) 3))), w).
Proof.
  intros Hne. rewrite HG1G2_fit_run. unfold run_summary.
  destruct (0 <? length (core.obs_counter (caller_df w) 3))%nat eqn:G;
    [reflexivity|].
  apply obs_counter_gate in G. contradiction.
Qed.



(** Dropping the duplicates in place would replace the frame of the
    caller. *)
Lemma drop_duplicates_inplace (w : world) :
  caller_df (snd (drop_duplicates true w)) = keep_first [] (caller_df w)
  /\ caller_df (snd (drop_duplicates false w)) = caller_df w.
Proof. split; reflexivity. Qed.

End RunCases.

(** The rows of a run that returns, from the equation [E] of the run. *)
Ltac run_rows E rows Hm Hf :=
  destruct (HG1G2_fit_Ok_inv _ _ _ _ _ _ _ E)
    as (_ & _ & rows & Hm & _ & Hf & _);
  unfold fitted_rows in Hf.

(** * The derived parameters *)

Section Derived.

Import hg1g2_model.

Variable table : list Penttila2016Row.

Lemma np_sum_residuals (data : DataFrame) (a b c : R) :
  np_sum (np_square (np_sub (map flux (map obs_v data))
    (_HG1G2_model
       (map (interp_value ref_phi1 table) (map obs_alpha data),
        map (interp_value ref_phi2 table) (map obs_alpha data),
        map (interp_value ref_phi3 table) (map obs_alpha data)) a b c)))
  = ss_residuals table data a b c.
Proof.
  unfold _HG1G2_model, ss_residuals, np_sum, np_square, np_sub, np_add,
    np_scale.
  induction data as [|o tl IH]; [reflexivity|].
  cbn [map map2 fold_right sum_over]. rewrite IH.
  unfold target_flux, model_flux, flux. rewrite Rsqr_pow2. reflexivity.
Qed.

Lemma np_sum_target (data : DataFrame) :
  np_sum (map flux (map obs_v data)) = sum_over target_flux data.
Proof.
  unfold np_sum. induction data as [|o tl IH]; [reflexivity|].
  cbn [map fold_right sum_over]. now rewrite IH.
Qed.

Lemma np_mean_target (data : DataFrame) :
  np_mean (map flux (map obs_v data)) = mean_target data.
Proof.
  unfold np_mean, mean_target. now rewrite np_sum_target, !length_map.
Qed.

Lemma np_sum_total (data : DataFrame) (m : R) :
  np_sum (np_square (np_sub_scalar (map flux (map obs_v data)) m))
  = sum_over (fun o => (target_flux o - m)²) data.
Proof.
  unfold np_sum, np_square, np_sub_scalar.
  induction data as [|o tl IH]; [reflexivity|].
  cbn [map fold_right sum_over]. rewrite IH, Rsqr_pow2. reflexivity.
Qed.

(** The row that the loop writes holds the parameters as the specification
    words them. *)
Lemma fitted_row_derived (df : DataFrame) (i : Z) (a b c : R) (cov : pcov) :
  let '(va, vb, vc) := np_diag cov in
  fr_id (fitted_row table df i (a, b, c) cov) = i
  /\ derived_from (fitted_row table df i (a, b, c) cov) table
                  (select_id df i) a b c (sqrt va) (sqrt vb) (sqrt vc).
Proof.
  destruct cov as [[[[c00 c01] c02] [[c10 c11] c12]] [[c20 c21] c22]].
  cbn [np_diag]. split; [reflexivity|].
  unfold derived_from, fitted_row, entity_row, entity_alphas, entity_target.
  cbn [np_diag fr_H12 fr_error_H12 fr_G1 fr_error_G1 fr_G2 fr_error_G2 fr_R].
  rewrite np_sum_residuals, np_mean_target, np_sum_total.
  rewrite !Rsqr_pow2. repeat split; reflexivity.
Qed.

Lemma sum_over_nonneg (f : Observation -> R) (data : DataFrame) :
  (forall o, 0 <= f o) -> 0 <= sum_over f data.
Proof.
  intros Hf. induction data as [|o tl IH]; simpl; [lra|].
  specialize (Hf o). lra.
Qed.

End Derived.

(** * The fit on the small table *)

Section Demo.

Import hg1g2_model.

Lemma interp_value_knot (phi : Penttila2016Row -> R)
  (table : list Penttila2016Row) (r : Penttila2016Row) :
  StronglySorted alpha_lt table -> In r table ->
  interp_value phi table (ref_alpha r) = phi r.
Proof.
  intros Hs Hin.
  assert (Hne : table <> []) by (destruct table; [contradiction | discriminate]).
  pose proof (y_interp_knot phi table r Hs Hin) as E.
  rewrite (y_interp_in_domain table phi Hne) in E
    by (apply in_domain_knot; exact Hin).
  now injection E.
Qed.

(** The value at the knot [r] of the sorted table [table]. *)
Ltac at_knot table r Hsorted :=
  apply (interp_value_knot _ table r Hsorted); simpl; tauto.

Lemma demo_table_sorted : StronglySorted alpha_lt demo_table.
Proof.
  unfold demo_table.
  repeat (constructor; [|repeat constructor; unfold alpha_lt; simpl; lra]).
  constructor.
Qed.

Lemma demo_table_nonempty : demo_table <> [].
Proof. discriminate. Qed.

Lemma flux_0 : flux 0 = 1.
Proof.
  unfold flux. replace (-0.4 * 0) with 0 by lra. apply Rpower_O. lra.
Qed.

Lemma flux_steps (n : nat) : flux (2.5 * INR n) = / 10 ^ n.
Proof.
  unfold flux. replace (-0.4 * (2.5 * INR n)) with (- INR n) by lra.
  rewrite Rpower_Ropp, Rpower_pow by lra. reflexivity.
Qed.

Lemma flux_2_5 : flux 2.5 = 0.1.
Proof.
  replace 2.5 with (2.5 * INR 1) by (simpl; lra). rewrite flux_steps. lra.
Qed.

Lemma flux_5 : flux 5 = 0.01.
Proof.
  replace 5 with (2.5 * INR 2) by (simpl; lra). rewrite flux_steps. lra.
Qed.

Lemma flux_7_5 : flux 7.5 = 0.001.
Proof.
  replace 7.5 with (2.5 * INR 3) by (simpl; lra). rewrite flux_steps. lra.
Qed.

Lemma demo_gate : core.obs_counter demo_df 3 = [].
Proof. reflexivity. Qed.

Lemma demo_unique_ids : unique_ids demo_df = [7; 3]%Z.
Proof. reflexivity. Qed.

Lemma demo_at_0 (phi : Penttila2016Row -> R) :
  interp_value phi demo_table 0 = phi (mkRef 0 1 1 1).
Proof. at_knot demo_table (mkRef 0 1 1 1) demo_table_sorted. Qed.

Lemma demo_at_10 (phi : Penttila2016Row -> R) :
  interp_value phi demo_table 10 = phi (mkRef 10 0.1 0.5 0.2).
Proof. at_knot demo_table (mkRef 10 0.1 0.5 0.2) demo_table_sorted. Qed.

Lemma demo_at_30 (phi : Penttila2016Row -> R) :
  interp_value phi demo_table 30 = phi (mkRef 30 0.01 0.25 0).
Proof. at_knot demo_table (mkRef 30 0.01 0.25 0) demo_table_sorted. Qed.

Lemma demo_at_60 (phi : Penttila2016Row -> R) :
  interp_value phi demo_table 60 = phi (mkRef 60 0.001 0.125 0).
Proof. at_knot demo_table (mkRef 60 0.001 0.125 0) demo_table_sorted. Qed.

Lemma demo_basis_7 :
  entity_basis demo_table demo_df 7
  = ([1; 0.1; 0.01; 0.001], [1; 0.5; 0.25; 0.125], [1; 0.2; 0; 0]).
Proof.
  unfold entity_basis.
  change (entity_alphas demo_df 7) with [0; 10; 30; 60].
  cbn [map]. rewrite !demo_at_0, !demo_at_10, !demo_at_30, !demo_at_60.
  reflexivity.
Qed.

Lemma demo_basis_3 :
  entity_basis demo_table demo_df 3
  = ([0.1; 0.01; 1; 0.001], [0.5; 0.25; 1; 0.125], [0.2; 0; 1; 0]).
Proof.
  unfold entity_basis.
  change (entity_alphas demo_df 3) with [10; 30; 0; 60].
  cbn [map]. rewrite !demo_at_0, !demo_at_10, !demo_at_30, !demo_at_60.
  reflexivity.
Qed.

Lemma demo_target_7 : entity_target demo_df 7 = [1; 0.1; 0.01; 0.001].
Proof.
  change (entity_target demo_df 7) with [flux 0; flux 2.5; flux 5; flux 7.5].
  now rewrite flux_0, flux_2_5, flux_5, flux_7_5.
Qed.

Lemma demo_target_3 : entity_target demo_df 3 = [0.1; 0.01; 1; 0.001].
Proof.
  change (entity_target demo_df 3) with [flux 2.5; flux 5; flux 0; flux 7.5].
  now rewrite flux_0, flux_2_5, flux_5, flux_7_5.
Qed.

(** The model with the parameters [(1, 0, 0)] is the first basis vector. *)
Lemma model_1_0_0 (fi1 fi2 fi3 : list R) :
  length fi1 = length fi2 -> length fi1 = length fi3 ->
  _HG1G2_model (fi1, fi2, fi3) 1 0 0 = fi1.
Proof.
  unfold _HG1G2_model, np_add, np_scale.
  revert fi2 fi3. induction fi1 as [|x t1 IH]; intros [|y t2] [|z t3] H2 H3;
    try discriminate; [reflexivity|].
  cbn [map map2]. f_equal; [lra|]. apply IH; simpl in *; lia.
Qed.

Lemma exact_solver_Ok (a b c : R) (cov : pcov) (f : model_fn) (xdata : basis)
  (ydata : list R) :
  ydata = f xdata a b c ->
  exact_solver a b c cov f xdata ydata = Ok ((a, b, c), cov).
Proof.
  intros E. unfold exact_solver.
  destruct (list_eq_dec Req_dec_T ydata (f xdata a b c)); [reflexivity|].
  contradiction.
Qed.

Lemma demo_solver_7 :
  demo_solver _HG1G2_model (entity_basis demo_table demo_df 7)
              (entity_target demo_df 7) = Ok ((1, 0, 0), zero_cov).
Proof.
  apply exact_solver_Ok. rewrite demo_basis_7, demo_target_7.
  now rewrite model_1_0_0.
Qed.

Lemma demo_solver_3 :
  demo_solver _HG1G2_model (entity_basis demo_table demo_df 3)
              (entity_target demo_df 3) = Ok ((1, 0, 0), zero_cov).
Proof.
  apply exact_solver_Ok. rewrite demo_basis_3, demo_target_3.
  now rewrite model_1_0_0.
Qed.

Lemma demo_in_domain (o : Observation) :
  In o demo_df -> in_domain demo_table (obs_alpha o).
Proof.
  unfold demo_df. simpl.
  intros [<-|[<-|[<-|[<-|[<-|[<-|[<-|[<-|[]]]]]]]]]; simpl.
  - apply (in_domain_knot demo_table (mkRef 0 1 1 1)). simpl. tauto.
  - apply (in_domain_knot demo_table (mkRef 10 0.1 0.5 0.2)). simpl. tauto.
  - apply (in_domain_knot demo_table (mkRef 10 0.1 0.5 0.2)). simpl. tauto.
  - apply (in_domain_knot demo_table (mkRef 30 0.01 0.25 0)). simpl. tauto.
  - apply (in_domain_knot demo_table (mkRef 30 0.01 0.25 0)). simpl. tauto.
  - apply (in_domain_knot demo_table (mkRef 0 1 1 1)). simpl. tauto.
  - apply (in_domain_knot demo_table (mkRef 60 0.001 0.125 0)). simpl. tauto.
  - apply (in_domain_knot demo_table (mkRef 60 0.001 0.125 0)). simpl. tauto.
Qed.




(** The run on the small table returns [demo_result]. *)
Lemma demo_run (junk_int : nat -> Z) (junk_float : nat -> R) :
  HG1G2_fit demo_table demo_solver junk_int junk_float demo_world
  = (Ok demo_result, demo_world').
Proof.
  rewrite HG1G2_fit_run. unfold run_summary.
  change (caller_df demo_world) with demo_df.
  rewrite demo_gate. cbn [length Nat.ltb Nat.leb].
  rewrite !table_interp_ok by exact demo_table_nonempty.
  rewrite demo_unique_ids. cbn [fit_all].
  rewrite !(entity_fit_in_domain demo_table demo_solver demo_table_nonempty).
  - rewrite demo_solver_7, demo_solver_3. reflexivity.
  - rewrite Forall_forall. intros x Hx. apply in_map_iff in Hx.
    destruct Hx as [o [<- Ho]]. apply filter_In in Ho.
    apply demo_in_domain. tauto.
  - rewrite Forall_forall. intros x Hx. apply in_map_iff in Hx.
    destruct Hx as [o [<- Ho]]. apply filter_In in Ho.
    apply demo_in_domain. tauto.
Qed.




(** *** The run with a negative sum of coefficients *)

Lemma cx_table_sorted : StronglySorted alpha_lt cx_table.
Proof.
  unfold cx_table.
  repeat (constructor; [|repeat constructor; unfold alpha_lt; simpl; lra]).
  constructor.
Qed.

Lemma cx_table_nonempty : cx_table <> [].
Proof. discriminate. Qed.

Lemma cx_at_10 (phi : Penttila2016Row -> R) :
  interp_value phi cx_table 10 = phi (mkRef 10 0.8 0.8 0.4).
Proof. at_knot cx_table (mkRef 10 0.8 0.8 0.4) cx_table_sorted. Qed.

Lemma cx_at_20 (phi : Penttila2016Row -> R) :
  interp_value phi cx_table 20 = phi (mkRef 20 0.6 0.6 0.3).
Proof. at_knot cx_table (mkRef 20 0.6 0.6 0.3) cx_table_sorted. Qed.

Lemma cx_at_40 (phi : Penttila2016Row -> R) :
  interp_value phi cx_table 40 = phi (mkRef 40 0.3 0.5 0).
Proof. at_knot cx_table (mkRef 40 0.3 0.5 0) cx_table_sorted. Qed.

Lemma cx_at_60 (phi : Penttila2016Row -> R) :
  interp_value phi cx_table 60 = phi (mkRef 60 0.2 0.4 0).
Proof. at_knot cx_table (mkRef 60 0.2 0.4 0) cx_table_sorted. Qed.

Lemma cx_entity_basis : entity_basis cx_table cx_df 1 = cx_basis.
Proof.
  unfold entity_basis.
  change (entity_alphas cx_df 1) with [10; 20; 40; 60].
  cbn [map]. rewrite !cx_at_10, !cx_at_20, !cx_at_40, !cx_at_60.
  reflexivity.
Qed.

Lemma flux_minus_2_5 : flux (-2.5) = 10.
Proof.
  unfold flux. replace (-0.4 * -2.5) with 1 by lra. apply Rpower_1. lra.
Qed.

Lemma cx_entity_target : entity_target cx_df 1 = cx_target.
Proof.
  change (entity_target cx_df 1)
    with [flux (-2.5); flux (-2.5); flux (-2.5); flux 0].
  now rewrite flux_0, flux_minus_2_5.
Qed.

Lemma cx_solver_Ok (f : model_fn) :
  cx_solver f cx_basis cx_target = Ok ((175, -85, -152), cx_cov).
Proof.
  unfold cx_solver.
  repeat (destruct (list_eq_dec Req_dec_T _ _) as [_|N];
          [|exfalso; apply N; reflexivity]).
  reflexivity.
Qed.

(** What [cx_solver] returns is the least-squares solution of the call. *)
Lemma cx_solver_minimises (a b c : R) :
  cost _HG1G2_model cx_basis cx_target 175 (-85) (-152) = 4
  /\ 4 <= cost _HG1G2_model cx_basis cx_target a b c.
Proof.
  unfold cost, cx_basis, cx_target, _HG1G2_model, np_sum, np_square, np_sub,
    np_add, np_scale.
  cbn [map map2 fold_right]. split; [lra|].
  replace ((10 - (a * 0.8 + b * 0.8 + c * 0.4)) ^ 2
           + ((10 - (a * 0.6 + b * 0.6 + c * 0.3)) ^ 2
              + ((10 - (a * 0.3 + b * 0.5 + c * 0)) ^ 2
                 + ((1 - (a * 0.2 + b * 0.4 + c * 0)) ^ 2 + 0))))
    with (4 + ((0.8 * (a - 175) + 0.8 * (b + 85) + 0.4 * (c + 152)) ^ 2
               + (0.6 * (a - 175) + 0.6 * (b + 85) + 0.3 * (c + 152)) ^ 2
               + (0.3 * (a - 175) + 0.5 * (b + 85)) ^ 2
               + (0.2 * (a - 175) + 0.4 * (b + 85)) ^ 2)) by lra.
  pose proof (pow2_ge_0 (0.8 * (a - 175) + 0.8 * (b + 85) + 0.4 * (c + 152))).
  pose proof (pow2_ge_0 (0.6 * (a - 175) + 0.6 * (b + 85) + 0.3 * (c + 152))).
  pose proof (pow2_ge_0 (0.3 * (a - 175) + 0.5 * (b + 85))).
  pose proof (pow2_ge_0 (0.2 * (a - 175) + 0.4 * (b + 85))).
  lra.
Qed.

Lemma cx_solver_least_squares : least_squares_solver cx_solver.
Proof.
  intros [[x y] z] ydata a b c cov H a' b' c'. unfold cx_solver in H.
  cbn [fst snd] in H.
  destruct (list_eq_dec Req_dec_T x (fst (fst cx_basis))) as [Ex|_];
    [|discriminate].
  destruct (list_eq_dec Req_dec_T y (snd (fst cx_basis))) as [Ey|_];
    [|discriminate].
  destruct (list_eq_dec Req_dec_T z (snd cx_basis)) as [Ez|_];
    [|discriminate].
  destruct (list_eq_dec Req_dec_T ydata cx_target) as [Et|_];
    [|discriminate].
  injection H as <- <- <- _. subst x y z ydata.
  change (fst (fst cx_basis), snd (fst cx_basis), snd cx_basis)
    with cx_basis.
  destruct (cx_solver_minimises a' b' c') as [E Hle]. rewrite E. exact Hle.
Qed.

Lemma cx_in_domain : Forall (in_domain cx_table) (entity_alphas cx_df 1).
Proof.
  change (entity_alphas cx_df 1) with [10; 20; 40; 60].
  apply Forall_cons;
    [apply (in_domain_knot cx_table (mkRef 10 0.8 0.8 0.4)); simpl; tauto|].
  apply Forall_cons;
    [apply (in_domain_knot cx_table (mkRef 20 0.6 0.6 0.3)); simpl; tauto|].
  apply Forall_cons;
    [apply (in_domain_knot cx_table (mkRef 40 0.3 0.5 0)); simpl; tauto|].
  apply Forall_cons;
    [apply (in_domain_knot cx_table (mkRef 60 0.2 0.4 0)); simpl; tauto|].
  apply Forall_nil.
Qed.

Lemma cx_run (junk_int : nat -> Z) (junk_float : nat -> R) :
  HG1G2_fit cx_table cx_solver junk_int junk_float cx_world
  = (Ok cx_result, cx_world').
Proof.
  rewrite HG1G2_fit_run. unfold run_summary.
  change (caller_df cx_world) with cx_df.
  change (core.obs_counter cx_df 3) with (@nil Z). cbn [length Nat.ltb Nat.leb].
  rewrite !table_interp_ok by exact cx_table_nonempty.
  change (unique_ids cx_df) with [1%Z]. cbn [fit_all].
  rewrite (entity_fit_in_domain cx_table cx_solver cx_table_nonempty)
    by exact cx_in_domain.
  rewrite cx_entity_basis, cx_entity_target, cx_solver_Ok.
  unfold cx_result, cx_row, cx_world', entity_call.
  now rewrite cx_entity_basis, cx_entity_target.
Qed.

Lemma cx_error_H12 :
  fr_error_H12 cx_row
  = 1.0857362 * sqrt (4100 + 1300 + 3216) / (175 + -85 + -152).
Proof.
  unfold cx_row, fitted_row, entity_row, cx_cov.
  cbn [np_diag fr_error_H12].
  rewrite !pow2_sqrt by lra. reflexivity.
Qed.

Lemma cx_error_H12_negative : fr_error_H12 cx_row < 0.
Proof.
  rewrite cx_error_H12.
  assert (Hs : 0 < sqrt (4100 + 1300 + 3216)) by (apply sqrt_lt_R0; lra).
  set (S := sqrt (4100 + 1300 + 3216)) in *.
  replace (1.0857362 * S / (175 + -85 + -152))
    with (- (1.0857362 * S / 62)) by (field; lra).
  assert (Hp : 0 < 1.0857362 * S / 62).
  { apply Rdiv_lt_0_compat; [|lra]. apply Rmult_lt_0_compat; [lra | exact Hs]. }
  lra.
Qed.

Lemma demo_alpha_max : alpha_max demo_table = 60.
Proof.
  unfold alpha_max, Rlist_max, demo_table. cbn [map ref_alpha fold_right].
  rewrite (Rmax_left 60 0) by lra. rewrite (Rmax_right 30 60) by lra.
  rewrite (Rmax_right 10 60) by lra. reflexivity.
Qed.

Lemma few_df_offender :
  exists i, entity few_df i /\ (n_obs few_df i < 3)%Z.
Proof.
  exists 2%Z. split; [unfold entity, few_df; simpl; tauto|].
  vm_compute. reflexivity.
Qed.

Lemma few_df_message :
  few_observations_msg (core.obs_counter few_df 3)
  = "Some asteroids has less than 3 observations: 2"%string.
Proof. reflexivity. Qed.

(** Not every returned error is non-negative. *)
Lemma errors_nonneg_fails : ~ errors_nonneg.
Proof.
  intros H.
  specialize (H cx_table cx_solver (fun _ => 0%Z) (fun _ => 0) cx_world
                cx_world' cx_result [cx_row] (cx_run _ _) eq_refl).
  inversion H as [|? ? [Hneg _] _]; subst.
  pose proof cx_error_H12_negative. lra.
Qed.

(** The covariance that [cx_solver] returns is the inverse of [J^T J] times
    the cost over the degrees of freedom, [4 / (4 - 3)]. *)
Lemma cx_cov_scaled_inverse :
  mat_mul cx_cov (gram cx_basis) = ((4, 0, 0), (0, 4, 0), (0, 0, 4)).
Proof.
  unfold mat_mul, gram, cx_cov, cx_basis, dot, np_sum.
  cbn [map2 fold_right]. repeat f_equal; lra.
Qed.

(** *** The functions on small inputs *)

Example obs_counter_few_df : core.obs_counter few_df 3 = [2%Z].
Proof. reflexivity. Qed.

Example obs_counter_demo_df_5 : core.obs_counter demo_df 5 = [3%Z; 7%Z].
Proof. reflexivity. Qed.

Example groupby_demo_df :
  core.groupby_id_count demo_df
  = [core.mkCount 3 4 4; core.mkCount 7 4 4].
Proof. reflexivity. Qed.

Example unique_ids_few_df : unique_ids few_df = [1%Z; 2%Z].
Proof. reflexivity. Qed.

Example str_negative : str (-25) = "-25"%string.
Proof. reflexivity. Qed.

Example setitem_out_of_bounds :
  setitem [1%Z; 2%Z] 2 7%Z = Raise (IndexError "index is out of bounds").
Proof. reflexivity. Qed.

Example demo_midpoint :
  y_interp ref_phi2 demo_table 20 = Ok 0.375.
Proof.
  change demo_table
    with ([mkRef 0 1 1 1] ++ mkRef 10 0.1 0.5 0.2 :: mkRef 30 0.01 0.25 0
            :: [mkRef 60 0.001 0.125 0]).
  rewrite y_interp_between.
  - f_equal. simpl. lra.
  - exact demo_table_sorted.
  - simpl. lra.
Qed.

Example demo_G1 :
  map fr_G1 demo_rows = [1 / (1 + 0 + 0); 1 / (1 + 0 + 0)].
Proof. reflexivity. Qed.

End Demo.

(** * The claims of the specification *)

Section Claims.

Import hg1g2_model.



(** C2: in the table of a run that returns, the row of every entity holds,
    for the coefficients [(a, b, c)] that the solver returned for the
    entity and the square roots [(sa, sb, sc)] of the diagonal of their
    covariance, with [s = a + b + c]: [H12 = -2.5 log10 s],
    [error_H12 = 1.0857362 sqrt(sa^2 + sb^2 + sc^2) / s], [G1 = a / s],
    [error_G1 = sqrt(((b+c) sa)^2 + (a sb)^2 + (a sc)^2) / s^2],
    [G2 = b / s],
    [error_G2 = sqrt((b sa)^2 + ((a+c) sb)^2 + (b sc)^2) / s^2] and
    [R = 1 - sum residuals^2 / sum (target - mean(target))^2]. *)
Theorem HG1G2_fit_derived_parameters
  (table : list Penttila2016Row)
  (curve_fit : model_fn -> basis -> list R -> result (popt * pcov))
  (junk_int : nat -> Z) (junk_float : nat -> R) (w w' : world)
  (res : PyedraFitDataFrame) :
  HG1G2_fit table curve_fit junk_int junk_float w = (Ok res, w') ->
  exists rows,
    model_df res = frame_of rows
    /\ Forall2
         (fun i row =>
            fr_id row = i
            /\ exists a b c cov,
                 curve_fit _HG1G2_model (entity_basis table (caller_df w) i)
                           (entity_target (caller_df w) i)
                 = Ok ((a, b, c), cov)
                 /\ let '(va, vb, vc) := np_diag cov in
                    derived_from row table (select_id (caller_df w) i)
                                 a b c (sqrt va) (sqrt vb) (sqrt vc))
         (unique_ids (caller_df w)) rows.
Proof.
  intros E. run_rows E rows Hm Hf.
  exists rows. split; [exact Hm|].
  eapply Forall2_impl; [|exact Hf].
  intros i row [_ [[[a b] c] [cov [Hs ->]]]].
  pose proof (fitted_row_derived table (caller_df w) i a b c cov) as Hd.
  destruct (np_diag cov) as [[va vb] vc] eqn:Ed.
  destruct Hd as [Hid Hd]. split; [exact Hid|].
  exists a, b, c, cov. split; [exact Hs|]. rewrite Ed. exact Hd.
Qed.

Lemma HG1G2_fit_derived_parameters_witness :
  HG1G2_fit demo_table demo_solver (fun _ => 0%Z) (fun _ => 0) demo_world
  = (Ok demo_result, demo_world')
  /\ exists rows,
       model_df demo_result = frame_of rows
       /\ Forall2
            (fun i row =>
               fr_id row = i
               /\ exists a b c cov,
                    demo_solver _HG1G2_model
                      (entity_basis demo_table (caller_df demo_world) i)
                      (entity_target (caller_df demo_world) i)
                    = Ok ((a, b, c), cov)
                    /\ let '(va, vb, vc) := np_diag cov in
                       derived_from row demo_table
                         (select_id (caller_df demo_world) i)
                         a b c (sqrt va) (sqrt vb) (sqrt vc))
            (unique_ids (caller_df demo_world)) rows.
Proof.
  split; [apply demo_run|].
  apply (HG1G2_fit_derived_parameters demo_table demo_solver
           (fun _ => 0%Z) (fun _ => 0) demo_world demo_world' demo_result).
  apply demo_run.
Defined.

(** C3: when an entity of the frame has fewer than 3 observations,
    [HG1G2_fit] raises [ValueError] and returns no table; the world is the
    one the run started in, with no call of the solver made; the message
    lists, joined by " - ", the ids that [obs_counter] returns for the
    threshold 3, which are, each once, the ids of the entities with fewer
    than 3 observations. *)
Theorem HG1G2_fit_few_observations
  (table : list Penttila2016Row)
  (curve_fit : model_fn -> basis -> list R -> result (popt * pcov))
  (junk_int : nat -> Z) (junk_float : nat -> R) (w : world) :
  (exists i, entity (caller_df w) i /\ (n_obs (caller_df w) i < 3)%Z) ->
  let lt := core.obs_counter (caller_df w) 3 in
  HG1G2_fit table curve_fit junk_int junk_float w
  = (Raise (ValueError
       ("Some asteroids has less than 3 observations: "
        ++ String.concat " - " (map str lt))%string), w)
  /\ NoDup lt
  /\ (forall i, In i lt
                <-> entity (caller_df w) i /\ (n_obs (caller_df w) i < 3)%Z).
Proof.
  intros [i Hi] lt. split; [|split].
  - apply HG1G2_fit_gate. intros Hnil.
    apply In_obs_counter in Hi. fold lt in Hi. unfold lt in Hi.
    rewrite Hnil in Hi. contradiction.
  - apply NoDup_obs_counter.
  - intros j. apply In_obs_counter.
Qed.

Lemma HG1G2_fit_few_observations_witness :
  (exists i, entity few_df i /\ (n_obs few_df i < 3)%Z)
  /\ let lt := core.obs_counter few_df 3 in
     HG1G2_fit demo_table demo_solver (fun _ => 0%Z) (fun _ => 0)
               (mkWorld few_df [])
     = (Raise (ValueError
          ("Some asteroids has less than 3 observations: "
           ++ String.concat " - " (map str lt))%string), mkWorld few_df [])
     /\ NoDup lt
     /\ (forall i, In i lt <-> entity few_df i /\ (n_obs few_df i < 3)%Z).
Proof.
  split; [exact few_df_offender|].
  apply (HG1G2_fit_few_observations demo_table demo_solver
           (fun _ => 0%Z) (fun _ => 0) (mkWorld few_df [])).
  exact few_df_offender.
Defined.





(** C7: on a reference table in strictly ascending order of alpha, each of
    the three interpolants returns, at the alpha of a row of the table, the
    phi of that row, and, at an alpha strictly between those of two
    neighbouring rows, the value on the chord through the two rows. *)
Theorem interpolation_at_and_between_knots
  (table : list Penttila2016Row) :
  StronglySorted alpha_lt table ->
  three_interpolants
    (fun phi =>
       (forall r, In r table -> y_interp phi table (ref_alpha r) = Ok (phi r))
       /\ (forall pre r0 r1 post x,
             table = pre ++ r0 :: r1 :: post ->
             ref_alpha r0 < x < ref_alpha r1 ->
             y_interp phi table x
             = Ok (phi r0 + (phi r1 - phi r0) * (x - ref_alpha r0)
                            / (ref_alpha r1 - ref_alpha r0)))).
Proof.
  intros Hs.
  assert (H : forall phi,
             (forall r, In r table ->
                        y_interp phi table (ref_alpha r) = Ok (phi r))
             /\ (forall pre r0 r1 post x,
                   table = pre ++ r0 :: r1 :: post ->
                   ref_alpha r0 < x < ref_alpha r1 ->
                   y_interp phi table x
                   = Ok (phi r0 + (phi r1 - phi r0) * (x - ref_alpha r0)
                                  / (ref_alpha r1 - ref_alpha r0)))).
  { intros phi. split.
    - intros r Hr. apply y_interp_knot; assumption.
    - intros pre r0 r1 post x -> Hx. apply y_interp_between; assumption. }
  repeat split; apply H.
Qed.

Lemma interpolation_at_and_between_knots_witness :
  StronglySorted alpha_lt demo_table
  /\ three_interpolants
       (fun phi =>
          (forall r, In r demo_table ->
                     y_interp phi demo_table (ref_alpha r) = Ok (phi r))
          /\ (forall pre r0 r1 post x,
                demo_table = pre ++ r0 :: r1 :: post ->
                ref_alpha r0 < x < ref_alpha r1 ->
                y_interp phi demo_table x
                = Ok (phi r0 + (phi r1 - phi r0) * (x - ref_alpha r0)
                               / (ref_alpha r1 - ref_alpha r0)))).
Proof.
  split; [exact demo_table_sorted|].
  apply (interpolation_at_and_between_knots demo_table demo_table_sorted).
Defined.

(** C8, as the code has it: in the table of a run that returns, the row of
    every entity has [error_G1 >= 0] and [error_G2 >= 0] when the sum
    [a + b + c] of the coefficients of the entity is not zero, and
    [error_H12 >= 0] when that sum is positive; when the sum is negative,
    [error_H12 <= 0]. *)
Theorem HG1G2_fit_errors_sign
  (table : list Penttila2016Row)
  (curve_fit : model_fn -> basis -> list R -> result (popt * pcov))
  (junk_int : nat -> Z) (junk_float : nat -> R) (w w' : world)
  (res : PyedraFitDataFrame) :
  HG1G2_fit table curve_fit junk_int junk_float w = (Ok res, w') ->
  exists rows,
    model_df res = frame_of rows
    /\ Forall2
         (fun i row =>
            exists a b c cov,
              curve_fit _HG1G2_model (entity_basis table (caller_df w) i)
                        (entity_target (caller_df w) i)
              = Ok ((a, b, c), cov)
              /\ (a + b + c <> 0 ->
                  0 <= fr_error_G1 row /\ 0 <= fr_error_G2 row)
              /\ (0 < a + b + c -> 0 <= fr_error_H12 row)
              /\ (a + b + c < 0 -> fr_error_H12 row <= 0))
         (unique_ids (caller_df w)) rows.
Proof.
  intros E. run_rows E rows Hm Hf.
  exists rows. split; [exact Hm|].
  eapply Forall2_impl; [|exact Hf].
  intros i row [_ [[[a b] c] [cov [Hs ->]]]].
  exists a, b, c, cov. split; [exact Hs|].
  pose proof (fitted_row_derived table (caller_df w) i a b c cov) as Hd.
  destruct (np_diag cov) as [[va vb] vc].
  destruct Hd as [_ (_ & HeH & _ & He1 & _ & He2 & _)].
  rewrite HeH, He1, He2.
  split; [|split].
  - intros Hs0.
    assert (Hq : 0 < / (a + b + c)²).
    { apply Rinv_0_lt_compat. apply Rlt_0_sqr. exact Hs0. }
    split; unfold Rdiv; apply Rmult_le_pos; try apply sqrt_pos; lra.
  - intros Hpos. unfold Rdiv.
    assert (Hq : 0 < / (a + b + c)) by (apply Rinv_0_lt_compat; exact Hpos).
    apply Rmult_le_pos; [|lra].
    apply Rmult_le_pos; [lra | apply sqrt_pos].
  - intros Hneg. unfold Rdiv.
    assert (Hq : / (a + b + c) < 0) by (apply Rinv_lt_0_compat; exact Hneg).
    assert (Hn : 0 <= 1.0857362 * sqrt ((sqrt va)² + (sqrt vb)² + (sqrt vc)²))
      by (apply Rmult_le_pos; [lra | apply sqrt_pos]).
    nra.
Qed.

Lemma HG1G2_fit_errors_sign_witness :
  HG1G2_fit demo_table demo_solver (fun _ => 0%Z) (fun _ => 0) demo_world
  = (Ok demo_result, demo_world')
  /\ exists rows,
       model_df demo_result = frame_of rows
       /\ Forall2
            (fun i row =>
               exists a b c cov,
                 demo_solver _HG1G2_model
                   (entity_basis demo_table (caller_df demo_world) i)
                   (entity_target (caller_df demo_world) i)
                 = Ok ((a, b, c), cov)
                 /\ (a + b + c <> 0 ->
                     0 <= fr_error_G1 row /\ 0 <= fr_error_G2 row)
                 /\ (0 < a + b + c -> 0 <= fr_error_H12 row)
                 /\ (a + b + c < 0 -> fr_error_H12 row <= 0))
            (unique_ids (caller_df demo_world)) rows.
Proof.
  split; [apply demo_run|].
  apply (HG1G2_fit_errors_sign demo_table demo_solver
           (fun _ => 0%Z) (fun _ => 0) demo_world demo_world' demo_result).
  apply demo_run.
Defined.

(** C8, as the specification states it, fails: the run on [cx_table] and
    [cx_df], whose solver returns the least-squares coefficients
    [(175, -85, -152)], returns a table whose one row has a negative
    [error_H12]. *)
Lemma HG1G2_fit_error_H12_negative :
  HG1G2_fit cx_table cx_solver (fun _ => 0%Z) (fun _ => 0) cx_world
  = (Ok cx_result, cx_world')
  /\ model_df cx_result = frame_of [cx_row]
  /\ fr_error_H12 cx_row < 0.
Proof.
  split; [apply cx_run|]. split; [reflexivity|]. exact cx_error_H12_negative.
Qed.

(** C9: the table of a run that returns has the columns [id], [H12],
    [error_H12], [G1], [error_G1], [G2], [error_G2] and [R], in this order
    and with these names, [id] a column of integers and the others columns
    of reals, all of one length. *)
Theorem HG1G2_fit_columns
  (table : list Penttila2016Row)
  (curve_fit : model_fn -> basis -> list R -> result (popt * pcov))
  (junk_int : nat -> Z) (junk_float : nat -> R) (w w' : world)
  (res : PyedraFitDataFrame) :
  HG1G2_fit table curve_fit junk_int junk_float w = (Ok res, w') ->
  map fst (model_df res) = result_fields
  /\ exists ids h12 e_h12 g1 e_g1 g2 e_g2 r,
       model_df res
       = [ ("id", IntColumn ids); ("H12", FloatColumn h12);
           ("error_H12", FloatColumn e_h12); ("G1", FloatColumn g1);
           ("error_G1", FloatColumn e_g1); ("G2", FloatColumn g2);
           ("error_G2", FloatColumn e_g2); ("R", FloatColumn r) ]%string
       /\ Forall (fun n => n = length ids)
                 [ length h12; length e_h12; length g1; length e_g1;
                   length g2; length e_g2; length r ].
Proof.
  intros E. run_rows E rows Hm Hf.
  rewrite Hm. split; [reflexivity|].
  unfold frame_of. do 8 eexists. split; [reflexivity|].
  repeat constructor; now rewrite !length_map.
Qed.

Lemma HG1G2_fit_columns_witness :
  HG1G2_fit demo_table demo_solver (fun _ => 0%Z) (fun _ => 0) demo_world
  = (Ok demo_result, demo_world')
  /\ map fst (model_df demo_result) = result_fields
  /\ exists ids h12 e_h12 g1 e_g1 g2 e_g2 r,
       model_df demo_result
       = [ ("id", IntColumn ids); ("H12", FloatColumn h12);
           ("error_H12", FloatColumn e_h12); ("G1", FloatColumn g1);
           ("error_G1", FloatColumn e_g1); ("G2", FloatColumn g2);
           ("error_G2", FloatColumn e_g2); ("R", FloatColumn r) ]%string
       /\ Forall (fun n => n = length ids)
                 [ length h12; length e_h12; length g1; length e_g1;
                   length g2; length e_g2; length r ].
Proof.
  split; [apply demo_run|].
  apply (HG1G2_fit_columns demo_table demo_solver
           (fun _ => 0%Z) (fun _ => 0) demo_world demo_world' demo_result).
  apply demo_run.
Defined.

(** C10: after any run of [HG1G2_fit], returning or raising, the frame of
    the caller is the frame it was before the run: the same rows with the
    same cells in the same order. *)
Theorem HG1G2_fit_leaves_input_frame
  (table : list Penttila2016Row)
  (curve_fit : model_fn -> basis -> list R -> result (popt * pcov))
  (junk_int : nat -> Z) (junk_float : nat -> R) (w : world) :
  caller_df (snd (HG1G2_fit table curve_fit junk_int junk_float w))
  = caller_df w.
Proof. apply HG1G2_fit_frame. Qed.

End Claims.

(** * More about the observation counter *)

Section ObsCounterMore.

Import core.

Lemma filter_sorted {A : Type} (R : A -> A -> Prop) (f : A -> bool)
  (l : list A) :
  StronglySorted R l -> StronglySorted R (filter f l).
Proof.
  induction 1 as [|a tl Hs IH Hall]; simpl; [constructor|].
  destruct (f a); [|exact IH].
  constructor; [exact IH|]. rewrite Forall_forall in *.
  intros b Hb. apply filter_In in Hb. apply Hall. tauto.
Qed.

Lemma map_index_sorted (g : list CountRow) :
  StronglySorted key_lt g -> StronglySorted Z.lt (map cnt_index g).
Proof.
  induction 1 as [|r tl Hs IH Hall]; simpl; constructor; [exact IH|].
  rewrite Forall_forall in *. intros k Hk. apply in_map_iff in Hk.
  destruct Hk as [q [<- Hq]]. apply Hall; exact Hq.
Qed.

Lemma sorted_Z_unique (l1 l2 : list Z) :
  StronglySorted Z.lt l1 -> StronglySorted Z.lt l2 ->
  (forall i, In i l1 <-> In i l2) -> l1 = l2.
Proof.
  revert l2. induction l1 as [|a t1 IH]; intros l2 S1 S2 Hin.
  - destruct l2 as [|b t2]; [reflexivity|].
    exfalso. apply (Hin b). now left.
  - destruct l2 as [|b t2].
    { exfalso. apply (Hin a). now left. }
    inversion S1 as [|? ? S1' F1]; subst.
    inversion S2 as [|? ? S2' F2]; subst.
    rewrite Forall_forall in F1, F2.
    assert (E : a = b).
    { destruct (Z.eq_dec a b) as [E|NE]; [exact E | exfalso].
      assert (Ha2 : In a t2).
      { destruct (proj1 (Hin a) (or_introl eq_refl)) as [Hba|H];
          [congruence | exact H]. }
      assert (Hb1 : In b t1).
      { destruct (proj2 (Hin b) (or_introl eq_refl)) as [Hab|H];
          [congruence | exact H]. }
      pose proof (F1 b Hb1). pose proof (F2 a Ha2). lia. }
    subst b. f_equal. apply IH; try assumption.
    intros i. split; intros Hi.
    + destruct (proj1 (Hin i) (or_intror Hi)) as [<-|H]; [|exact H].
      specialize (F1 a Hi). lia.
    + destruct (proj2 (Hin i) (or_intror Hi)) as [<-|H]; [|exact H].
      specialize (F2 a Hi). lia.
Qed.

Lemma n_obs_Permutation (df df' : DataFrame) (i : Z) :
  Permutation df df' -> n_obs df i = n_obs df' i.
Proof.
  intros H. unfold n_obs, select_id. f_equal.
  induction H as [|o l l' _ IH|o1 o2 l|l l' l'' _ IH1 _ IH2]; simpl.
  - reflexivity.
  - destruct (obs_id o =? i)%Z; simpl; now rewrite IH.
  - destruct (obs_id o1 =? i)%Z, (obs_id o2 =? i)%Z; reflexivity.
  - now rewrite IH1.
Qed.

Lemma obs_counter_sorted (df : DataFrame) (obs : Z) :
  StronglySorted Z.lt (obs_counter df obs).
Proof.
  unfold obs_counter. apply map_index_sorted, filter_sorted.
  apply groupby_id_count_sorted.
Qed.

End ObsCounterMore.

(** X1: the ids that [obs_counter] returns are in strictly ascending
    order, whatever the order of the rows of the frame. *)
Theorem obs_counter_ascending (df : DataFrame) (obs : Z) :
  StronglySorted Z.lt (core.obs_counter df obs).
Proof. apply obs_counter_sorted. Qed.

(** X2: what [obs_counter] returns grows with the threshold, and for a
    threshold of 1 or less it returns nothing, every entity having at least
    one observation. *)
Theorem obs_counter_threshold (df : DataFrame) :
  (forall obs obs', (obs <= obs')%Z ->
     incl (core.obs_counter df obs) (core.obs_counter df obs'))
  /\ (forall obs, (obs <= 1)%Z -> core.obs_counter df obs = []).
Proof.
  split.
  - intros obs obs' Hle i Hi. apply In_obs_counter in Hi.
    apply In_obs_counter. split; [tauto | lia].
  - intros obs Hle. destruct (core.obs_counter df obs) as [|i l] eqn:E;
      [reflexivity|].
    assert (Hi : In i (core.obs_counter df obs)) by (rewrite E; now left).
    apply In_obs_counter in Hi. destruct Hi as [He Hlt].
    apply entity_n_obs in He. lia.
Qed.

(** X3: [obs_counter] does not depend on the order of the rows of the
    frame. *)
Theorem obs_counter_row_order (df df' : DataFrame) (obs : Z) :
  Permutation df df' ->
  core.obs_counter df obs = core.obs_counter df' obs.
Proof.
  intros H. apply sorted_Z_unique; try apply obs_counter_sorted.
  intros i. rewrite !In_obs_counter.
  rewrite !entity_n_obs, (n_obs_Permutation df df' i H). tauto.
Qed.

Lemma obs_counter_row_order_witness :
  Permutation few_df (rev few_df)
  /\ core.obs_counter few_df 3 = core.obs_counter (rev few_df) 3.
Proof.
  split; [apply Permutation_rev|].
  apply (obs_counter_row_order few_df (rev few_df) 3).
  apply Permutation_rev.
Defined.

(** * More about a fit run *)

Section FitMore.

Import hg1g2_model.

Variable table : list Penttila2016Row.
Variable curve_fit : model_fn -> basis -> list R -> result (popt * pcov).
Variable junk_int : nat -> Z.
Variable junk_float : nat -> R.





(** A run on a frame without rows. *)
Lemma HG1G2_fit_no_rows (w : world) :
  table <> [] -> caller_df w = [] ->
  exists res,
    HG1G2_fit table curve_fit junk_int junk_float w = (Ok res, w)
    /\ model_df res = empty_model_df.
Proof.
  intros Hne Hdf. rewrite HG1G2_fit_run. unfold run_summary.
  rewrite Hdf. cbn [core.obs_counter core.groupby_id_count fold_right filter
                    map length Nat.ltb Nat.leb].
  rewrite !table_interp_ok by exact Hne.
  cbn [unique_ids keep_first map fit_all]. rewrite logged_nil.
  eexists. split; reflexivity.
Qed.

(** The metadata of a run that returns. *)
Lemma HG1G2_fit_Ok_metadata (w w' : world) (res : PyedraFitDataFrame) :
  HG1G2_fit table curve_fit junk_int junk_float w = (Ok res, w') ->
  exists c1 c2 c3,
    table_interp ref_phi1 table = Ok c1
    /\ table_interp ref_phi2 table = Ok c2
    /\ table_interp ref_phi3 table = Ok c3
    /\ metadata res = metadata_of table c1 c2 c3
    /\ plot_model_df (plot res) = model_df res.
Proof.
  rewrite HG1G2_fit_run. unfold run_summary.
  destruct (0 <? length (core.obs_counter (caller_df w) 3))%nat;
    [discriminate|].
  destruct (table_interp ref_phi1 table) as [c1|e]; [|discriminate].
  destruct (table_interp ref_phi2 table) as [c2|e]; [|discriminate].
  destruct (table_interp ref_phi3 table) as [c3|e]; [|discriminate].
  destruct (fit_all _ _ _ _ _ _) as [[rows|e] calls]; [|discriminate].
  intros H. injection H as <- _. exists c1, c2, c3. simpl. auto.
Qed.

(** The row of an entity in the rows of a run. *)
Lemma fitted_rows_In (df : DataFrame) (ids : list Z)
  (rows : list FitResult) (row : FitResult) :
  Forall2 (fitted table curve_fit df) ids rows -> In row rows ->
  exists i, In i ids /\ fitted table curve_fit df i row /\ fr_id row = i.
Proof.
  intros Hf. induction Hf as [|i r ids rows Hi Hf IH]; intros Hin;
    [contradiction|].
  destruct Hin as [->|Hin].
  - exists i. split; [now left|]. split; [exact Hi|].
    pose proof (Forall2_fitted_ids table curve_fit df [i] [row]
                  (Forall2_cons _ _ Hi (Forall2_nil _))) as E.
    simpl in E. now injection E.
  - destruct (IH Hin) as [j [Hj H]]. exists j. split; [now right | exact H].
Qed.

End FitMore.

Section FitMoreDemo.

Import hg1g2_model.




Lemma seven_run :
  exists res w',
    HG1G2_fit demo_table demo_solver (fun _ => 0%Z) (fun _ => 0)
              (mkWorld (select_id demo_df 7) []) = (Ok res, w').
Proof.
  apply HG1G2_fit_Ok.
  - exact demo_table_nonempty.
  - reflexivity.
  - intros o Ho. apply demo_in_domain.
    change (caller_df (mkWorld (select_id demo_df 7) []))
      with (filter (fun o => (obs_id o =? 7)%Z) demo_df) in Ho.
    apply filter_In in Ho. tauto.
  - intros i Hi.
    assert (E : i = 7%Z).
    { unfold entity in Hi. simpl in Hi. intuition. }
    subst i. eexists. exact demo_solver_7.
Qed.

End FitMoreDemo.

Section FitMoreTheorems.

Import hg1g2_model.





(** X6: on a frame without rows, with a reference table that has rows,
    [HG1G2_fit] returns the table with its eight columns and no row, and
    does not call the solver. *)
Theorem HG1G2_fit_empty_frame
  (table : list Penttila2016Row)
  (curve_fit : model_fn -> basis -> list R -> result (popt * pcov))
  (junk_int : nat -> Z) (junk_float : nat -> R) (w : world) :
  table <> [] -> caller_df w = [] ->
  exists res,
    HG1G2_fit table curve_fit junk_int junk_float w = (Ok res, w)
    /\ model_df res = empty_model_df.
Proof. apply HG1G2_fit_no_rows. Qed.

Lemma HG1G2_fit_empty_frame_witness :
  demo_table <> []
  /\ exists res,
       HG1G2_fit demo_table demo_solver (fun _ => 0%Z) (fun _ => 0)
                 (mkWorld [] []) = (Ok res, mkWorld [] [])
       /\ model_df res = empty_model_df.
Proof.
  split; [exact demo_table_nonempty|].
  apply (HG1G2_fit_empty_frame demo_table demo_solver (fun _ => 0%Z)
           (fun _ => 0) (mkWorld [] [])).
  - exact demo_table_nonempty.
  - reflexivity.
Defined.

(** X7: what [HG1G2_fit] returns or raises, and the world it ends in, do
    not depend on what the arrays of [np.empty] held: every cell of the
    eight arrays is written before the table is built. *)
Theorem HG1G2_fit_no_uninitialised_cell
  (table : list Penttila2016Row)
  (curve_fit : model_fn -> basis -> list R -> result (popt * pcov))
  (junk_int junk_int' : nat -> Z) (junk_float junk_float' : nat -> R)
  (w : world) :
  HG1G2_fit table curve_fit junk_int junk_float w
  = HG1G2_fit table curve_fit junk_int' junk_float' w.
Proof. now rewrite !HG1G2_fit_run. Qed.

(** X8: the row of an entity depends on the observations of that entity
    only: two runs that return, on frames in which the entity has the same
    rows, give it the same row. *)
Theorem HG1G2_fit_entities_independent
  (table : list Penttila2016Row)
  (curve_fit : model_fn -> basis -> list R -> result (popt * pcov))
  (junk_int : nat -> Z) (junk_float : nat -> R)
  (w1 w1' w2 w2' : world) (res1 res2 : PyedraFitDataFrame) (i : Z) :
  HG1G2_fit table curve_fit junk_int junk_float w1 = (Ok res1, w1') ->
  HG1G2_fit table curve_fit junk_int junk_float w2 = (Ok res2, w2') ->
  select_id (caller_df w1) i = select_id (caller_df w2) i ->
  exists rows1 rows2,
    model_df res1 = frame_of rows1
    /\ model_df res2 = frame_of rows2
    /\ forall r1 r2, In r1 rows1 -> In r2 rows2 ->
                     fr_id r1 = i -> fr_id r2 = i -> r1 = r2.
Proof.
  intros E1 E2 Hsel. run_rows E1 rows1 Hm1 Hf1. run_rows E2 rows2 Hm2 Hf2.
  exists rows1, rows2. split; [exact Hm1|]. split; [exact Hm2|].
  intros r1 r2 H1 H2 I1 I2.
  destruct (fitted_rows_In _ _ _ _ _ _ Hf1 H1) as [j1 [_ [F1 J1]]].
  destruct (fitted_rows_In _ _ _ _ _ _ Hf2 H2) as [j2 [_ [F2 J2]]].
  rewrite I1 in J1. rewrite I2 in J2. subst j1 j2.
  destruct F1 as [_ [op1 [cov1 [S1 ->]]]].
  destruct F2 as [_ [op2 [cov2 [S2 ->]]]].
  unfold entity_basis, entity_target, entity_alphas in S1, S2.
  rewrite Hsel in S1. rewrite S1 in S2. injection S2 as <- <-.
  unfold fitted_row, entity_target, entity_alphas. now rewrite Hsel.
Qed.

Lemma HG1G2_fit_entities_independent_witness :
  exists res2 w2',
    HG1G2_fit demo_table demo_solver (fun _ => 0%Z) (fun _ => 0) demo_world
    = (Ok demo_result, demo_world')
    /\ HG1G2_fit demo_table demo_solver (fun _ => 0%Z) (fun _ => 0)
                 (mkWorld (select_id demo_df 7) []) = (Ok res2, w2')
    /\ select_id (caller_df demo_world) 7
       = select_id (caller_df (mkWorld (select_id demo_df 7) [])) 7
    /\ exists rows1 rows2,
         model_df demo_result = frame_of rows1
         /\ model_df res2 = frame_of rows2
         /\ forall r1 r2, In r1 rows1 -> In r2 rows2 ->
                          fr_id r1 = 7%Z -> fr_id r2 = 7%Z -> r1 = r2.
Proof.
  destruct seven_run as [res2 [w2' E2]]. exists res2, w2'.
  split; [apply demo_run|]. split; [exact E2|]. split; [reflexivity|].
  apply (HG1G2_fit_entities_independent demo_table demo_solver
           (fun _ => 0%Z) (fun _ => 0) demo_world demo_world'
           (mkWorld (select_id demo_df 7) []) w2' demo_result res2 7%Z).
  - apply demo_run.
  - exact E2.
  - reflexivity.
Defined.

(** X9: in the table of a run that returns, the [R] of an entity whose
    fluxes are not all equal to their mean (the total sum of squares is
    positive) is at most 1, and it is 1 exactly when the fitted model passes
    through every flux of the entity (the residual sum of squares is 0). *)
Theorem HG1G2_fit_R_at_most_1
  (table : list Penttila2016Row)
  (curve_fit : model_fn -> basis -> list R -> result (popt * pcov))
  (junk_int : nat -> Z) (junk_float : nat -> R) (w w' : world)
  (res : PyedraFitDataFrame) :
  HG1G2_fit table curve_fit junk_int junk_float w = (Ok res, w') ->
  exists rows,
    model_df res = frame_of rows
    /\ Forall2
         (fun i row =>
            exists a b c cov,
              curve_fit _HG1G2_model (entity_basis table (caller_df w) i)
                        (entity_target (caller_df w) i)
              = Ok ((a, b, c), cov)
              /\ (0 < ss_total (select_id (caller_df w) i) ->
                  fr_R row <= 1
                  /\ (fr_R row = 1
                      <-> ss_residuals table (select_id (caller_df w) i)
                                       a b c = 0)))
         (unique_ids (caller_df w)) rows.
Proof.
  intros E. run_rows E rows Hm Hf.
  exists rows. split; [exact Hm|].
  eapply Forall2_impl; [|exact Hf].
  intros i row [_ [[[a b] c] [cov [Hs ->]]]].
  exists a, b, c, cov. split; [exact Hs|]. intros Hpos.
  pose proof (fitted_row_derived table (caller_df w) i a b c cov) as Hd.
  destruct (np_diag cov) as [[va vb] vc].
  destruct Hd as [_ (_ & _ & _ & _ & _ & _ & HR)]. rewrite HR.
  assert (Hres : 0 <= ss_residuals table (select_id (caller_df w) i) a b c).
  { apply sum_over_nonneg. intros o. apply Rle_0_sqr. }
  assert (Hinv : 0 < / ss_total (select_id (caller_df w) i))
    by (apply Rinv_0_lt_compat; exact Hpos).
  unfold Rdiv. split.
  - assert (0 <= ss_residuals table (select_id (caller_df w) i) a b c
                 * / ss_total (select_id (caller_df w) i))
      by (apply Rmult_le_pos; lra).
    lra.
  - split; intros H.
    + assert (Hz : ss_residuals table (select_id (caller_df w) i) a b c
                   * / ss_total (select_id (caller_df w) i) = 0) by lra.
      apply Rmult_integral in Hz. destruct Hz; [assumption | lra].
    + rewrite H. lra.
Qed.

Lemma HG1G2_fit_R_at_most_1_witness :
  HG1G2_fit demo_table demo_solver (fun _ => 0%Z) (fun _ => 0) demo_world
  = (Ok demo_result, demo_world')
  /\ exists rows,
       model_df demo_result = frame_of rows
       /\ Forall2
            (fun i row =>
               exists a b c cov,
                 demo_solver _HG1G2_model
                   (entity_basis demo_table (caller_df demo_world) i)
                   (entity_target (caller_df demo_world) i)
                 = Ok ((a, b, c), cov)
                 /\ (0 < ss_total (select_id (caller_df demo_world) i) ->
                     fr_R row <= 1
                     /\ (fr_R row = 1
                         <-> ss_residuals demo_table
                               (select_id (caller_df demo_world) i)
                               a b c = 0)))
            (unique_ids (caller_df demo_world)) rows.
Proof.
  split; [apply demo_run|].
  apply (HG1G2_fit_R_at_most_1 demo_table demo_solver (fun _ => 0%Z)
           (fun _ => 0) demo_world demo_world' demo_result).
  apply demo_run.
Defined.

End FitMoreTheorems.

(** * More about the interpolation layer *)

Section InterpolationMore.

Import interpolate.

(** [np.interp] stays between bounds of the ordinates. *)
Lemma np_interp_bounds (lo hi x : R) (xs ys : list R) :
  length xs = length ys -> xs <> [] ->
  Forall (fun y => lo <= y <= hi) ys ->
  lo <= np_interp x xs ys <= hi.
Proof.
  revert ys. induction xs as [|x0 xs IH]; intros ys Hlen Hne Hall;
    [congruence|].
  destruct ys as [|y0 ys]; [discriminate|].
  inversion Hall as [|? ? Hy0 Hall']; subst.
  destruct xs as [|x1 xs], ys as [|y1 ys]; try discriminate.
  - simpl. exact Hy0.
  - inversion Hall' as [|? ? Hy1 _]; subst.
    change (np_interp x (x0 :: x1 :: xs) (y0 :: y1 :: ys))
      with (if Rlt_dec x x1
            then if Rle_dec x x0 then y0
                 else (y1 - y0) / (x1 - x0) * (x - x0) + y0
            else np_interp x (x1 :: xs) (y1 :: ys)).
    destruct (Rlt_dec x x1) as [Hx1|Hx1].
    + destruct (Rle_dec x x0) as [Hx0|Hx0]; [exact Hy0|].
      set (t := (x - x0) / (x1 - x0)).
      assert (Ht : 0 < t < 1).
      { unfold t. split.
        - apply Rdiv_lt_0_compat; lra.
        - apply (Rmult_lt_reg_r (x1 - x0)); [lra|].
          unfold Rdiv. rewrite Rmult_assoc, Rinv_l by lra. lra. }
      replace ((y1 - y0) / (x1 - x0) * (x - x0) + y0)
        with (y0 + t * (y1 - y0)) by (unfold t; field; lra).
      split; nra.
    + apply IH; [simpl in *; lia | discriminate | exact Hall'].
Qed.

Lemma Permutation_insert_knot (p : R * R) (l : list (R * R)) :
  Permutation (insert_knot p l) (p :: l).
Proof.
  induction l as [|q tl IH]; simpl; [reflexivity|].
  destruct (Rle_dec (fst p) (fst q)); [reflexivity|].
  rewrite IH. apply perm_swap.
Qed.

Lemma Permutation_sort_knots (l : list (R * R)) :
  Permutation (sort_knots l) l.
Proof.
  induction l as [|p tl IH]; simpl; [reflexivity|].
  rewrite Permutation_insert_knot. now constructor.
Qed.

Lemma combine_fst_snd (l : list (R * R)) :
  combine (map fst l) (map snd l) = l.
Proof.
  induction l as [|[a b] tl IH]; simpl; [reflexivity | now rewrite IH].
Qed.

Lemma knots_of_map (phi : Penttila2016Row -> R)
  (table : list Penttila2016Row) :
  knots_of phi table = map (fun r => (ref_alpha r, phi r)) table.
Proof.
  unfold knots_of. induction table as [|r tl IH]; simpl;
    [reflexivity | now rewrite IH].
Qed.

Lemma map_fst_knots_of (phi : Penttila2016Row -> R)
  (table : list Penttila2016Row) :
  map fst (knots_of phi table) = map ref_alpha table.
Proof. unfold knots_of. apply map_fst_combine. now rewrite !length_map. Qed.

Lemma NoDup_keys_eq (l : list (R * R)) (p q : R * R) :
  NoDup (map fst l) -> In p l -> In q l -> fst p = fst q -> p = q.
Proof.
  induction l as [|a tl IH]; intros N Hp Hq E; [contradiction|].
  simpl in N. inversion N as [|? ? Ha N']; subst.
  destruct Hp as [->|Hp], Hq as [->|Hq].
  - reflexivity.
  - exfalso. apply Ha. rewrite E. apply in_map. exact Hq.
  - exfalso. apply Ha. rewrite <- E. apply in_map. exact Hp.
  - apply IH; assumption.
Qed.

(** Knots with distinct abscissas have one sorted order. *)
Lemma sorted_knots_unique (l1 l2 : list (R * R)) :
  StronglySorted knot_le l1 -> StronglySorted knot_le l2 ->
  Permutation l1 l2 -> NoDup (map fst l1) -> l1 = l2.
Proof.
  revert l2. induction l1 as [|a t1 IH]; intros l2 S1 S2 P N.
  - apply Permutation_nil in P. now subst.
  - destruct l2 as [|b t2].
    { apply Permutation_sym, Permutation_nil in P. discriminate. }
    inversion S1 as [|? ? S1' F1]; subst.
    inversion S2 as [|? ? S2' F2]; subst.
    rewrite Forall_forall in F1, F2.
    assert (E : a = b).
    { assert (Ha : In a (b :: t2))
        by (apply (Permutation_in _ P); now left).
      assert (Hb : In b (a :: t1))
        by (apply (Permutation_in _ (Permutation_sym P)); now left).
      destruct Ha as [Ha|Ha]; [now subst|].
      destruct Hb as [Hb|Hb]; [now subst|].
      pose proof (F1 b Hb) as H1. pose proof (F2 a Ha) as H2.
      unfold knot_le in H1, H2.
      apply (NoDup_keys_eq (a :: t1)); [exact N | now left | now right | lra]. }
    subst b. f_equal. apply IH; try assumption.
    + eapply Permutation_cons_inv. exact P.
    + simpl in N. now inversion N.
Qed.

Lemma sort_knots_Permutation (l1 l2 : list (R * R)) :
  Permutation l1 l2 -> NoDup (map fst l1) ->
  sort_knots l1 = sort_knots l2.
Proof.
  intros P N. apply sorted_knots_unique; try apply sort_knots_sorted.
  - rewrite !Permutation_sort_knots. exact P.
  - eapply Permutation_NoDup; [|exact N].
    apply Permutation_map, Permutation_sym, Permutation_sort_knots.
Qed.

(** The interpolants of two tables with the same rows, of distinct
    alphas, are the same objects. *)
Lemma table_interp_Permutation (phi : Penttila2016Row -> R)
  (t1 t2 : list Penttila2016Row) :
  Permutation t1 t2 -> NoDup (map ref_alpha t1) ->
  table_interp phi t1 = table_interp phi t2.
Proof.
  intros P N. unfold table_interp, interp1d.
  rewrite !length_map, !Nat.eqb_refl. simpl negb. cbv iota.
  rewrite (Permutation_length P).
  destruct (length t2 <? 1)%nat; [reflexivity|].
  fold (knots_of phi t1). fold (knots_of phi t2).
  rewrite (sort_knots_Permutation (knots_of phi t1) (knots_of phi t2));
    [reflexivity | |].
  - rewrite !knots_of_map. now apply Permutation_map.
  - now rewrite map_fst_knots_of.
Qed.

End InterpolationMore.

Section InterpolationMoreDemo.

Lemma demo_alpha_min : alpha_min demo_table = 0.
Proof.
  unfold alpha_min, Rlist_min, demo_table. cbn [map ref_alpha fold_right].
  rewrite (Rmin_right 60 0) by lra. rewrite (Rmin_right 30 0) by lra.
  rewrite (Rmin_right 10 0) by lra. reflexivity.
Qed.

Lemma demo_alphas_NoDup : NoDup (map ref_alpha demo_table).
Proof.
  unfold demo_table. cbn [map ref_alpha].
  repeat (apply NoDup_cons; [simpl; intuition lra|]). apply NoDup_nil.
Qed.

Lemma demo_in_domain_20 : in_domain demo_table 20.
Proof. unfold in_domain. rewrite demo_alpha_min, demo_alpha_max. lra. Qed.

End InterpolationMoreDemo.

(** X10: on the domain of a reference table that has rows, an interpolant
    returns a value between the least and the greatest value of its phi
    column: linear interpolation does not overshoot. *)
Theorem interpolation_within_column
  (phi : Penttila2016Row -> R) (table : list Penttila2016Row) (x : R) :
  table <> [] -> in_domain table x ->
  exists v,
    y_interp phi table x = Ok v
    /\ Rlist_min (map phi table) <= v <= Rlist_max (map phi table).
Proof.
  intros Hne Hd. exists (interp_value phi table x).
  split; [apply y_interp_in_domain; assumption|].
  assert (Hcol : map phi table <> [])
    by (destruct table; [congruence | discriminate]).
  destruct (Rlist_min_spec _ Hcol) as [_ Hlo].
  destruct (Rlist_max_spec _ Hcol) as [_ Hhi].
  unfold interp_value. apply np_interp_bounds.
  - now rewrite !length_map.
  - intros E. apply (f_equal (@length R)) in E.
    rewrite length_map, length_sort_knots in E. unfold knots_of in E.
    rewrite length_combine, !length_map in E.
    destruct table; [congruence | simpl in E; lia].
  - rewrite Forall_forall. intros y Hy. apply in_map_iff in Hy.
    destruct Hy as [[a b] [<- Hp]].
    apply (proj1 (In_sort_knots _ _)) in Hp.
    unfold knots_of in Hp. apply in_combine_r in Hp. simpl.
    split; [apply Hlo | apply Hhi]; exact Hp.
Qed.

Lemma interpolation_within_column_witness :
  demo_table <> [] /\ in_domain demo_table 20
  /\ exists v,
       y_interp ref_phi2 demo_table 20 = Ok v
       /\ Rlist_min (map ref_phi2 demo_table) <= v
          <= Rlist_max (map ref_phi2 demo_table).
Proof.
  split; [exact demo_table_nonempty|]. split; [exact demo_in_domain_20|].
  apply (interpolation_within_column ref_phi2 demo_table 20
           demo_table_nonempty demo_in_domain_20).
Defined.

(** X11: whatever the order of the rows of the reference table, the
    interpolant that [interp1d] builds holds its knots in ascending order of
    alpha, and they are the knots of the table, each as often as the table
    has it. *)
Theorem interp1d_sorts_knots
  (phi : Penttila2016Row -> R) (table : list Penttila2016Row)
  (c : interpolate.interp1d_obj) :
  table_interp phi table = Ok c ->
  StronglySorted Rle (interpolate.interp_x c)
  /\ Permutation (combine (interpolate.interp_x c) (interpolate.interp_y c))
                 (knots_of phi table).
Proof.
  intros Hc.
  assert (Hne : table <> []).
  { intros ->. unfold table_interp, interpolate.interp1d in Hc.
    simpl in Hc. discriminate. }
  rewrite (table_interp_ok table phi Hne) in Hc. injection Hc as <-.
  simpl. split.
  - apply map_fst_sorted, sort_knots_sorted.
  - rewrite combine_fst_snd. apply Permutation_sort_knots.
Qed.

Lemma interp1d_sorts_knots_witness :
  table_interp ref_phi1 (rev demo_table)
  = Ok (demo_interp ref_phi1)
  /\ StronglySorted Rle (interpolate.interp_x (demo_interp ref_phi1))
  /\ Permutation (combine (interpolate.interp_x (demo_interp ref_phi1))
                          (interpolate.interp_y (demo_interp ref_phi1)))
                 (knots_of ref_phi1 (rev demo_table)).
Proof.
  assert (E : table_interp ref_phi1 (rev demo_table)
              = Ok (demo_interp ref_phi1)).
  { rewrite <- (table_interp_Permutation ref_phi1 demo_table (rev demo_table)
                  (Permutation_rev _) demo_alphas_NoDup).
    apply table_interp_ok. exact demo_table_nonempty. }
  split; [exact E|].
  apply (interp1d_sorts_knots ref_phi1 (rev demo_table)
           (demo_interp ref_phi1) E).
Defined.

(** X12: the order of the rows of the reference table does not matter:
    for two tables with the same rows, of distinct alphas, the interpolants
    have the same values and exceptions at every phase angle, and
    [HG1G2_fit] returns the same result table, or raises the same
    exception, with the same calls of the solver. *)
Theorem reference_table_row_order
  (t1 t2 : list Penttila2016Row) :
  Permutation t1 t2 -> NoDup (map ref_alpha t1) ->
  (forall phi x, y_interp phi t1 x = y_interp phi t2 x)
  /\ forall curve_fit junk_int junk_float w,
       match hg1g2_model.HG1G2_fit t1 curve_fit junk_int junk_float w,
             hg1g2_model.HG1G2_fit t2 curve_fit junk_int junk_float w with
       | (Ok r1, w1), (Ok r2, w2) =>
           hg1g2_model.model_df r1 = hg1g2_model.model_df r2 /\ w1 = w2
       | (Raise e1, w1), (Raise e2, w2) => e1 = e2 /\ w1 = w2
       | _, _ => False
       end.
Proof.
  intros P N.
  assert (Hy : forall phi x, y_interp phi t1 x = y_interp phi t2 x).
  { intros phi x. unfold y_interp.
    now rewrite (table_interp_Permutation phi t1 t2 P N). }
  split; [exact Hy|].
  intros curve_fit junk_int junk_float w. rewrite !HG1G2_fit_run.
  unfold run_summary.
  destruct (0 <? length (core.obs_counter (caller_df w) 3))%nat; [auto|].
  rewrite <- !(table_interp_Permutation _ t1 t2 P N).
  destruct (table_interp ref_phi1 t1); [|auto].
  destruct (table_interp ref_phi2 t1); [|auto].
  destruct (table_interp ref_phi3 t1); [|auto].
  rewrite (fit_all_ext curve_fit (y_interp ref_phi1 t2) (y_interp ref_phi2 t2)
             (y_interp ref_phi3 t2) (y_interp ref_phi1 t1)
             (y_interp ref_phi2 t1) (y_interp ref_phi3 t1))
    by (intros; symmetry; apply Hy).
  destruct (fit_all _ _ _ _ _ _) as [[rows|e] calls]; auto.
Qed.

Lemma reference_table_row_order_witness :
  Permutation demo_table (rev demo_table)
  /\ NoDup (map ref_alpha demo_table)
  /\ forall phi x,
       y_interp phi demo_table x = y_interp phi (rev demo_table) x.
Proof.
  split; [apply Permutation_rev|]. split; [exact demo_alphas_NoDup|].
  apply (reference_table_row_order demo_table (rev demo_table)
           (Permutation_rev _) demo_alphas_NoDup).
Defined.

(** * The classes of core.py *)

Section Dict.

Import core.

Context {V : Type}.








Lemma dict_setitem_new (k : string) (v : V) (d : list (string * V)) :
  ~ In k (map fst d) -> dict_setitem k v d = d ++ [(k, v)].
Proof.
  induction d as [|[k0 v0] tl IH]; simpl; intros Hn; [reflexivity|].
  destruct (String.eqb_spec k0 k) as [->|N0]; [tauto|].
  rewrite IH by tauto. reflexivity.
Qed.

(** [dict] of the items of a dict is that dict. *)
Lemma dict_of_dict (items : list (string * V)) :
  NoDup (map fst items) -> dict items = items.
Proof.
  unfold dict.
  assert (H : forall d,
             NoDup (map fst (d ++ items)) ->
             fold_left (fun d kv => dict_setitem (fst kv) (snd kv) d) items d
             = d ++ items).
  { induction items as [|[k0 v0] tl IH]; intros d N; simpl.
    - now rewrite app_nil_r.
    - rewrite dict_setitem_new.
      + rewrite IH; rewrite <- app_assoc; [reflexivity | exact N].
      + rewrite map_app in N. simpl in N.
        apply NoDup_remove_2 in N. intros Hk. apply N.
        apply in_or_app. now left. }
  intros N. apply (H []). exact N.
Qed.

End Dict.


(** * The plot of the fit *)

Section PlotLemmas.

Import hg1g2_model.






Variable table : list Penttila2016Row.
Hypothesis table_nonempty : table <> [].










End PlotLemmas.

(** * The plot and the metadata of a fit *)

Section PlotOfFit.

Import hg1g2_model.




End PlotOfFit.

Section PlotDemo.

Import hg1g2_model.





End PlotDemo.

Section PlotInvariant.

Import hg1g2_model.





End PlotInvariant.

Section PlotTheorems.

Import hg1g2_model.

(** X14: the metadata of a run that returns has the one key
    [pentilla2016]; under it, a mapping with the keys [alpha], [phi1],
    [phi2], [phi3], [y_interp1], [y_interp2], [y_interp3], in this order,
    which holds the four columns of the reference table and three
    interpolants that give, at every phase angle, what the interpolants of
    the fit give; the key [penttila2016] raises [KeyError].  The plotter of
    the result holds the result table. *)
Theorem HG1G2_fit_metadata
  (table : list Penttila2016Row)
  (curve_fit : model_fn -> basis -> list R -> result (popt * pcov))
  (junk_int : nat -> Z) (junk_float : nat -> R) (w w' : world)
  (res : PyedraFitDataFrame) :
  HG1G2_fit table curve_fit junk_int junk_float w = (Ok res, w') ->
  let md := core.MetaData.new (metadata res) in
  core.MetaData.__iter__ md = ["pentilla2016"%string]
  /\ core.MetaData.__getitem__ md "penttila2016"
     = Raises (KeyError "penttila2016")
  /\ plot_model_df (plot res) = model_df res
  /\ exists cache c1 c2 c3,
       core.MetaData.__getattr__ md "pentilla2016" = Returns cache
       /\ let inner := core.MetaData.new cache in
          core.MetaData.__iter__ inner = cache_keys
          /\ core.MetaData.__getattr__ inner "alpha"
             = Returns (MetaArray (map ref_alpha table))
          /\ core.MetaData.__getattr__ inner "phi1"
             = Returns (MetaArray (map ref_phi1 table))
          /\ core.MetaData.__getattr__ inner "phi2"
             = Returns (MetaArray (map ref_phi2 table))
          /\ core.MetaData.__getattr__ inner "phi3"
             = Returns (MetaArray (map ref_phi3 table))
          /\ core.MetaData.__getattr__ inner "y_interp1"
             = Returns (MetaInterp c1)
          /\ core.MetaData.__getattr__ inner "y_interp2"
             = Returns (MetaInterp c2)
          /\ core.MetaData.__getattr__ inner "y_interp3"
             = Returns (MetaInterp c3)
          /\ forall x,
               interpolate.interp1d_call c1 x = y_interp ref_phi1 table x
               /\ interpolate.interp1d_call c2 x = y_interp ref_phi2 table x
               /\ interpolate.interp1d_call c3 x = y_interp ref_phi3 table x.
Proof.
  intros E md.
  destruct (HG1G2_fit_Ok_metadata _ _ _ _ _ _ _ E)
    as (c1 & c2 & c3 & E1 & E2 & E3 & Hmd & Hplot).
  unfold md. rewrite Hmd.
  split; [reflexivity|]. split; [reflexivity|]. split; [exact Hplot|].
  eexists. exists c1, c2, c3. split; [reflexivity|].
  repeat (split; [reflexivity|]).
  intros x. unfold y_interp. now rewrite E1, E2, E3.
Qed.

Lemma HG1G2_fit_metadata_witness :
  HG1G2_fit demo_table demo_solver (fun _ => 0%Z) (fun _ => 0) demo_world
  = (Ok demo_result, demo_world')
  /\ core.MetaData.__iter__ (core.MetaData.new (metadata demo_result))
     = ["pentilla2016"%string]
  /\ core.MetaData.__getitem__ (core.MetaData.new (metadata demo_result))
                               "penttila2016"
     = Raises (KeyError "penttila2016")
  /\ plot_model_df (plot demo_result) = model_df demo_result.
Proof.
  split; [apply demo_run|].
  pose proof (HG1G2_fit_metadata demo_table demo_solver (fun _ => 0%Z)
                (fun _ => 0) demo_world demo_world' demo_result
                (demo_run _ _)) as H.
  cbv zeta in H. destruct H as (H1 & H2 & H3 & _). auto.
Defined.







(** X18: calling an [HG1G2Plot] without a kind is calling it with the kind
    [curvefit], which calls [curvefit] with the frame given as [df] and
    raises [TypeError] without one; a kind that begins with an underscore,
    and the kinds [model_df] and [default_plot_kind], which are not
    callable, raise [AttributeError] and leave the axes as it is, whatever
    pandas offers under the name; every other kind is the plot method of
    pandas of that name on the table, or its exception. *)
Theorem HG1G2Plot_dispatch
  (table : list Penttila2016Row)
  (pandas_plot :
     ModelFrame -> string -> outcome (core.attribute plot_kwargs Axes))
  (self : HG1G2Plot) (kwargs : plot_kwargs) (ax : Axes) :
  let call := HG1G2Plot_call table pandas_plot self in
  call None kwargs ax = call (Some "curvefit"%string) kwargs ax
  /\ (forall df, kw_df kwargs = Some df ->
        call None kwargs ax = curvefit table self df ax)
  /\ (kw_df kwargs = None ->
        exists msg, call None kwargs ax = (Raises (Exn (TypeError msg)), ax))
  /\ (forall kind,
        String.prefix "_" kind = true
        \/ kind = "model_df"%string \/ kind = "default_plot_kind"%string ->
        call (Some kind) kwargs ax = (Raises (invalid_plot_method kind), ax))
  /\ (forall kind,
        String.prefix "_" kind = false ->
        kind <> "curvefit"%string -> kind <> "model_df"%string ->
        kind <> "default_plot_kind"%string ->
        call (Some kind) kwargs ax
        = match pandas_plot (plot_model_df self) kind with
          | Raises e => (Raises e, ax)
          | Returns core.Value => (Raises (invalid_plot_method kind), ax)
          | Returns (core.Method method) => method kwargs ax
          end).
Proof.
  intros call. unfold call, HG1G2Plot_call, core.BasePlot.__call__,
    core.BasePlot.getattr, core.BasePlot.__getattr__,
    core.BasePlot.default_plot_kind, invalid_plot_method.
  split; [reflexivity|]. split; [|split; [|split]].
  - intros df Hdf. cbn. now rewrite Hdf.
  - intros Hdf. cbn. rewrite Hdf. eexists. reflexivity.
  - intros kind [Hp|[->| ->]]; [now rewrite Hp | reflexivity | reflexivity].
  - intros kind Hp N1 N2 N3. rewrite Hp. unfold HG1G2Plot_lookup.
    apply String.eqb_neq in N1, N2, N3. rewrite N1, N2, N3.
    destruct (pandas_plot (plot_model_df self) kind) as [[m|]|e]; reflexivity.
Qed.


End PlotTheorems.
